(** * Nutrition estimation pipeline of the health tracker

    A shallow embedding of [Api/nutrition.js] (the serverless nutrition
    lookup with its two provider clients) and of the offline estimator
    [estimateFood] of [src/App.jsx], with the properties of the
    specification stated over them.

    Conventions of the embedding.
    - A JavaScript number is an IEEE-754 binary64 value, modelled by
      [spec_float] at precision 53 and maximal exponent 1024, with the
      operations of the standard library's [SpecFloat].
    - A JavaScript string is a sequence of 16-bit code units.  The
      embedding covers the texts whose code units are all below 256, the
      range U+0000 to U+00FF: such a text is a [string] with one character
      per code unit, so that the character of code 160 is the no-break
      space U+00A0 and the character of code 201 the letter U+00C9.  White
      space, case mapping, word characters and percent-encoding are those of
      ECMAScript on that range.  A text with a code unit from 256 upwards
      has no counterpart in the embedding.
    - A parsed JSON body is a [jsval]; the network is an oracle mapping a
      request to what the call produces, and every client threads the log
      of the requests it has issued. *)

From Stdlib Require Import ZArith List String Ascii Bool Lia DecimalString.
From Stdlib Require Import Floats.SpecFloat.
Import ListNotations.
Local Open Scope string_scope.
Local Open Scope Z_scope.
Set Warnings "-register-all".

(** ** Numbers *)

Module Num.

Definition number := spec_float.

Definition prec : Z := 53.
Definition emax : Z := 1024.

Definition zero : number := S754_zero false.
Definition NaN : number := S754_nan.
Definition Infinity : number := S754_infinity false.

Definition add (x y : number) : number := SFadd prec emax x y.
Definition mul (x y : number) : number := SFmul prec emax x y.
Definition div (x y : number) : number := SFdiv prec emax x y.

(** [x < y], [x <= y], [x > y]: every comparison with NaN is false. *)
Definition lt (x y : number) : bool := SFltb x y.
Definition le (x y : number) : bool := SFleb x y.
Definition gt (x y : number) : bool := SFltb y x.

Definition isNaN (x : number) : bool :=
  match x with S754_nan => true | _ => false end.

(** ToBoolean on a number: [0], [-0] and [NaN] are falsy. *)
Definition truthy (x : number) : bool :=
  match x with
  | S754_zero _ | S754_nan => false
  | _ => true
  end.

(** The number nearest to the integer [z]. *)
Definition of_Z (z : Z) : number := binary_normalize prec emax z 0 false.

(** The number nearest to [(-1)^neg * m * 10^e], for a natural [m]: the
    value of a decimal literal, rounded to nearest, ties to even. *)
Definition of_decimal (neg : bool) (m : Z) (e : Z) : number :=
  match m with
  | Zpos p =>
      match e with
      | Zneg k =>
          let '(q, e', l) :=
            SFdiv_core_binary prec emax (Zpos p) 0 (Z.pow_pos 10 k) 0 in
          binary_round_aux prec emax neg q e' l
      | _ => binary_normalize prec emax (if neg then - (m * 10 ^ e) else m * 10 ^ e) 0 neg
      end
  | _ => S754_zero neg
  end.

(** [Number.EPSILON], 2^-52. *)
Definition EPSILON : number := binary_round prec emax false 1 (-52).

(** [Math.round]: the nearest integer, a tie going towards +Infinity; a
    result of zero keeps the sign of the argument. *)
Definition round (x : number) : number :=
  match x with
  | S754_finite s m e =>
      match e with
      | Zneg k =>
          let den := Z.pow_pos 2 k in
          let n := (2 * (if s then Zneg m else Zpos m) + den) / (2 * den) in
          binary_normalize prec emax n 0 s
      | _ => x
      end
  | _ => x
  end.

End Num.
Import Num.

(** ** Strings *)

Module Str.

Definition code (c : ascii) : N := N_of_ascii c.

Definition between (lo hi : N) (c : ascii) : bool :=
  (N.leb lo (code c) && N.leb (code c) hi)%bool.

Definition is_digit (c : ascii) : bool := between 48 57 c.
Definition is_upper (c : ascii) : bool := between 65 90 c.
Definition is_lower (c : ascii) : bool := between 97 122 c.

(** White space and line terminators, as [trim], [parseFloat], [Number] and
    the class [\s] see them: the controls U+0009 to U+000D, the space and,
    beyond ASCII, the no-break space U+00A0.  The other white space of
    ECMAScript (U+1680, U+2000 to U+200A, U+2028, U+2029, U+202F, U+205F,
    U+3000 and U+FEFF) lies above U+00FF. *)
Definition is_space (c : ascii) : bool :=
  (between 9 13 c || N.eqb (code c) 32 || N.eqb (code c) 160)%bool.

(** The word characters of [\b]: letters, digits and the underscore. *)
Definition is_word (c : ascii) : bool :=
  (is_digit c || is_upper c || is_lower c || N.eqb (code c) 95)%bool.

(** The letters with a lower case among the code units below 256: A to Z
    and, beyond ASCII, U+00C0 to U+00DE without the multiplication sign
    U+00D7.  Each is 32 below its lower case. *)
Definition has_lower (c : ascii) : bool :=
  (is_upper c || between 192 214 c || between 216 222 c)%bool.

(** The lower case of one code unit, as [toLowerCase] maps it. *)
Definition lower (c : ascii) : ascii :=
  if has_lower c then ascii_of_N (code c + 32) else c.

(** The form under which a pattern with the flag [i] compares two code
    units: the upper case of the code unit when that is one code unit.  The
    letters a to z and U+00E0 to U+00FE without the division sign U+00F7 are
    32 above theirs.  The upper case of U+00B5 and of U+00FF lies above
    U+00FF and is the upper case of no other code unit below 256, and that
    of U+00DF is two code units: the three compare equal to themselves
    only and stand for themselves here. *)
Definition upper (c : ascii) : ascii :=
  if (is_lower c || between 224 246 c || between 248 254 c)%bool
  then ascii_of_N (code c - 32) else c.

Fixpoint toLowerCase (s : string) : string :=
  match s with
  | EmptyString => EmptyString
  | String c r => String (lower c) (toLowerCase r)
  end.

Fixpoint trimStart (s : string) : string :=
  match s with
  | String c r => if is_space c then trimStart r else s
  | EmptyString => EmptyString
  end.

(** [trimEnd] keeps a character when it is not white space or when something
    is kept after it. *)
Fixpoint trimEnd (s : string) : string :=
  match s with
  | EmptyString => EmptyString
  | String c r =>
      match trimEnd r with
      | EmptyString => if is_space c then EmptyString else String c EmptyString
      | r' => String c r'
      end
  end.

Definition trim (s : string) : string := trimEnd (trimStart s).

Fixpoint startsWith (s p : string) : bool :=
  match p, s with
  | EmptyString, _ => true
  | String a p', String b s' => (Ascii.eqb a b && startsWith s' p')%bool
  | String _ _, EmptyString => false
  end.

(** [s.includes(p)]. *)
Fixpoint includes (s p : string) : bool :=
  (startsWith s p ||
   match s with
   | EmptyString => false
   | String _ r => includes r p
   end)%bool.

Definition is_empty (s : string) : bool :=
  match s with EmptyString => true | _ => false end.

(** The value of a run of decimal digits, most significant first. *)
Definition digit_val (c : ascii) : Z := Z.of_N (code c) - 48.

Fixpoint digits_val (acc : Z) (s : string) : Z :=
  match s with
  | EmptyString => acc
  | String c r => digits_val (10 * acc + digit_val c) r
  end.

(** Splits [s] into its longest prefix of characters satisfying [p] and the rest. *)
Fixpoint span (p : ascii -> bool) (s : string) : string * string :=
  match s with
  | String c r =>
      if p c then let '(a, b) := span p r in (String c a, b) else (EmptyString, s)
  | EmptyString => (EmptyString, EmptyString)
  end.

End Str.
Import Str.

(** ** Regular expressions

    The matcher follows the continuation-passing semantics of ECMAScript:
    a pattern is run against a state with a continuation for what follows
    it, alternatives are tried left to right, quantifiers are greedy, and
    an iteration of a quantifier that consumes nothing is rejected. *)

Module Regex.

Inductive cclass : Type :=
  | CDigit                (* \d *)
  | CSpace                (* \s *)
  | CLit (c : ascii).     (* a literal character *)

Inductive regex : Type :=
  | Eps
  | Cls (c : cclass)
  | Seq (r1 r2 : regex)
  | Alt (r1 r2 : regex)
  | Star (r : regex)            (* r*  *)
  | Opt (r : regex)             (* r?  *)
  | Group (i : nat) (r : regex) (* the i-th capturing parenthesis *)
  | WordB.                      (* \b  *)

(** [r+] *)
Definition Plus (r : regex) : regex := Seq r (Star r).

Fixpoint Lits (s : string) : regex :=
  match s with
  | EmptyString => Eps
  | String c EmptyString => Cls (CLit c)
  | String c r => Seq (Cls (CLit c)) (Lits r)
  end.

(** A position in the input: the character before it, if any, and what is
    left to read. *)
Record state : Type := mkState { prev : option ascii; rest : string }.

Definition captures := list (nat * string).

Definition cmatch (icase : bool) (cl : cclass) (a : ascii) : bool :=
  match cl with
  | CDigit => is_digit a
  | CSpace => is_space a
  | CLit c => if icase then Ascii.eqb (upper c) (upper a) else Ascii.eqb c a
  end.

Definition progress (st st' : state) : bool :=
  Nat.ltb (String.length (rest st')) (String.length (rest st)).

(** The text read between two positions of one run. *)
Definition consumed (st st' : state) : string :=
  substring 0 (String.length (rest st) - String.length (rest st')) (rest st).

Definition at_boundary (st : state) : bool :=
  let a := match prev st with Some c => is_word c | None => false end in
  let b := match rest st with String c _ => is_word c | EmptyString => false end in
  xorb a b.

Section Matcher.

Variable icase : bool.
Context {R : Type}.

Definition cont := state -> captures -> option R.

Definition orelse (x y : option R) : option R :=
  match x with Some _ => x | None => y end.

Fixpoint star (body : state -> captures -> cont -> option R)
    (fuel : nat) (st : state) (caps : captures) (k : cont) : option R :=
  match fuel with
  | O => k st caps
  | S fuel' =>
      orelse
        (body st caps (fun st' caps' =>
           if progress st st' then star body fuel' st' caps' k else None))
        (k st caps)
  end.

Fixpoint run (r : regex) (st : state) (caps : captures) (k : cont) : option R :=
  match r with
  | Eps => k st caps
  | Cls cl =>
      match rest st with
      | String a s' =>
          if cmatch icase cl a then k (mkState (Some a) s') caps else None
      | EmptyString => None
      end
  | Seq r1 r2 => run r1 st caps (fun st' caps' => run r2 st' caps' k)
  | Alt r1 r2 => orelse (run r1 st caps k) (run r2 st caps k)
  | Star r1 => star (run r1) (String.length (rest st)) st caps k
  | Opt r1 =>
      orelse
        (run r1 st caps (fun st' caps' =>
           if progress st st' then k st' caps' else None))
        (k st caps)
  | Group i r1 =>
      run r1 st caps (fun st' caps' => k st' ((i, consumed st st') :: caps'))
  | WordB => if at_boundary st then k st caps else None
  end.

End Matcher.

(** The first match of [r], scanning the start position from left to right. *)
Fixpoint search (icase : bool) (r : regex) (p : option ascii) (s : string)
    : option captures :=
  match run icase r (mkState p s) [] (fun _ caps => Some caps) with
  | Some caps => Some caps
  | None =>
      match s with
      | String a s' => search icase r (Some a) s'
      | EmptyString => None
      end
  end.

(** [s.match(r)] for a pattern without the [g] flag: the captures of the
    leftmost match, or [None] for [null]. *)
Definition exec (icase : bool) (r : regex) (s : string) : option captures :=
  search icase r None s.

(** The text of capture [i] of a match: the most recent binding. *)
Fixpoint capture (i : nat) (caps : captures) : string :=
  match caps with
  | [] => EmptyString
  | (j, s) :: caps' => if Nat.eqb i j then s else capture i caps'
  end.

End Regex.
Import Regex.

(** ** Values and conversions *)

Module JS.

(** What a decimal literal denotes. *)
Inductive literal : Type :=
  | LInfinity (neg : bool)
  | LDecimal (neg : bool) (m : Z) (e : Z).

Definition literal_value (l : literal) : number :=
  match l with
  | LInfinity neg => S754_infinity neg
  | LDecimal neg m e => of_decimal neg m e
  end.

Definition read_sign (s : string) : bool * string :=
  match s with
  | String c r =>
      if Ascii.eqb c "-" then (true, r)
      else if Ascii.eqb c "+" then (false, r)
      else (false, s)
  | EmptyString => (false, s)
  end.

(** An exponent part [e], [e+] or [e-] followed by at least one digit; when
    it is incomplete nothing is read. *)
Definition read_exponent (s : string) : Z * string :=
  match s with
  | String c r =>
      if (Ascii.eqb c "e" || Ascii.eqb c "E")%bool then
        let '(neg, r1) := read_sign r in
        let '(ds, r2) := span is_digit r1 in
        if is_empty ds then (0, s)
        else ((if neg then - digits_val 0 ds else digits_val 0 ds), r2)
      else (0, s)
  | EmptyString => (0, s)
  end.

(** The longest prefix of [s] that is a signed decimal literal
    ([StrDecimalLiteral]), with what follows it. *)
Definition read_literal (s : string) : option (literal * string) :=
  let '(neg, s1) := read_sign s in
  if startsWith s1 "Infinity" then
    Some (LInfinity neg, substring 8 (String.length s1 - 8) s1)
  else
    let '(ip, s2) := span is_digit s1 in
    let '(fp, s3) :=
      match s2 with
      | String c r =>
          if Ascii.eqb c "." then
            let '(fp, r') := span is_digit r in
            if (is_empty ip && is_empty fp)%bool then (EmptyString, s2) else (fp, r')
          else (EmptyString, s2)
      | EmptyString => (EmptyString, s2)
      end in
    if (is_empty ip && is_empty fp)%bool then None
    else
      let '(e, s4) := read_exponent s3 in
      Some (LDecimal neg (digits_val 0 (ip ++ fp)) (e - Z.of_nat (String.length fp)), s4).

(** [parseFloat(s)] on a string. *)
Definition parseFloat (s : string) : number :=
  match read_literal (trimStart s) with
  | Some (l, _) => literal_value l
  | None => NaN
  end.

(** [parseInt(s, 10)]. *)
Definition parseInt (s : string) : number :=
  let '(neg, s1) := read_sign (trimStart s) in
  let '(ds, _) := span is_digit s1 in
  if is_empty ds then NaN else of_decimal neg (digits_val 0 ds) 0.

Definition radix_digit (radix : Z) (c : ascii) : option Z :=
  let v :=
    if is_digit c then Z.of_N (code c) - 48
    else if is_lower c then Z.of_N (code c) - 87
    else if is_upper c then Z.of_N (code c) - 55
    else 99 in
  if v <? radix then Some v else None.

Fixpoint radix_val (radix : Z) (acc : Z) (s : string) : option Z :=
  match s with
  | EmptyString => Some acc
  | String c r =>
      match radix_digit radix c with
      | Some v => radix_val radix (radix * acc + v) r
      | None => None
      end
  end.

(** A literal [0x..], [0o..] or [0b..], read whole. *)
Definition read_radix (s : string) : option number :=
  match s with
  | String "0" (String c (String d r)) =>
      let body := String d r in
      let radix :=
        if (Ascii.eqb c "x" || Ascii.eqb c "X")%bool then 16
        else if (Ascii.eqb c "o" || Ascii.eqb c "O")%bool then 8
        else if (Ascii.eqb c "b" || Ascii.eqb c "B")%bool then 2
        else 0 in
      if radix =? 0 then None
      else option_map of_Z (radix_val radix 0 body)
  | _ => None
  end.

(** [Number(s)] on a string: the whole trimmed text must be a numeric literal. *)
Definition StringToNumber (s : string) : number :=
  let t := trim s in
  if is_empty t then zero
  else
    match read_radix t with
    | Some n => n
    | None =>
        match read_literal t with
        | Some (l, EmptyString) => literal_value l
        | _ => NaN
        end
    end.

(** A JavaScript value as [JSON.parse] and property access produce them. *)
Inductive jsval : Type :=
  | JUndefined
  | JNull
  | JBool (b : bool)
  | JNum (n : number)
  | JStr (s : string)
  | JArr (l : list jsval)
  | JObj (l : list (string * jsval)).

(** ToBoolean. *)
Definition truthy (v : jsval) : bool :=
  match v with
  | JUndefined | JNull => false
  | JBool b => b
  | JNum n => Num.truthy n
  | JStr s => negb (is_empty s)
  | JArr _ | JObj _ => true
  end.

Fixpoint lookup (k : string) (l : list (string * jsval)) : jsval :=
  match l with
  | [] => JUndefined
  | (k', v) :: l' => if String.eqb k k' then v else lookup k l'
  end.

(** [v[k]] for a [v] that is neither [null] nor [undefined], and a key [k]
    that no prototype defines: only an object can hold it. *)
Definition get (v : jsval) (k : string) : jsval :=
  match v with
  | JObj l => lookup k l
  | _ => JUndefined
  end.

(** [null] and [undefined], the two values that have no properties. *)
Definition nullish (v : jsval) : bool :=
  match v with
  | JUndefined | JNull => true
  | _ => false
  end.

(** [a || b] *)
Definition or_else (a b : jsval) : jsval := if truthy a then a else b.

Definition neg_zero_to_zero (n : number) : number :=
  match n with S754_zero _ => zero | _ => n end.

(** [Number(v)].  An array converts through its text: elements joined by
    commas, [null] and [undefined] giving the empty text.  A number inside
    an array goes through its text and loses the sign of zero; the text of
    two or more elements holds a comma and is no literal. *)
Fixpoint ToNumber (v : jsval) : number :=
  match v with
  | JUndefined => NaN
  | JNull => zero
  | JBool b => if b then of_Z 1 else zero
  | JNum n => n
  | JStr s => StringToNumber s
  | JArr [] => zero
  | JArr [x] =>
      match x with
      | JUndefined | JNull => zero
      | JBool _ | JObj _ => NaN
      | JNum n => neg_zero_to_zero n
      | JStr s => StringToNumber s
      | JArr _ => ToNumber x
      end
  | JArr _ => NaN
  | JObj _ => NaN
  end.

(** [parseFloat(v)]: the argument is first converted to its text, of which
    only the part before the first comma can be read. *)
Fixpoint parseFloatOf (v : jsval) : number :=
  match v with
  | JNum n => neg_zero_to_zero n
  | JStr s => parseFloat s
  | JArr (x :: _) => parseFloatOf x
  | _ => NaN
  end.

End JS.
Import JS.

(** ** The network and the effects of a request *)

Module Net.

Inductive exn : Type :=
  | TypeError (message : string)
  | SyntaxError (message : string)
  | Error (message : string).

(** [String(err)] *)
Definition String_of_exn (e : exn) : string :=
  match e with
  | TypeError m => "TypeError: " ++ m
  | SyntaxError m => "SyntaxError: " ++ m
  | Error m => "Error: " ++ m
  end.

Record request : Type := mkRequest {
  url : string;
  headers : list (string * string)
}.

(** What [await r.json()] gives: a value, or the exception of a body that
    is not JSON. *)
Inductive json_result : Type :=
  | Unparseable (e : exn)
  | Parsed (v : jsval).

Record response : Type := mkResponse {
  ok : bool;
  status : nat;
  text : string;
  json : json_result
}.

(** What [await fetch(..)] gives: a response, or the exception of a call
    that failed at the network level. *)
Inductive fetch_result : Type :=
  | NetworkFailure (e : exn)
  | Responded (r : response).

Inductive outcome (A : Type) : Type :=
  | Ret (a : A)
  | Throw (e : exn).
Arguments Ret {A} a.
Arguments Throw {A} e.

(** A computation reads the log of the requests issued so far and extends it. *)
Definition M (A : Type) : Type := list request -> outcome A * list request.

Definition ret {A} (a : A) : M A := fun log => (Ret a, log).

Definition raise {A} (e : exn) : M A := fun log => (Throw e, log).

Definition bind {A B} (c : M A) (f : A -> M B) : M B :=
  fun log =>
    match c log with
    | (Ret a, log') => f a log'
    | (Throw e, log') => (Throw e, log')
    end.

(** [try { c } catch (err) { h(err) }] *)
Definition try_catch {A} (c : M A) (h : exn -> M A) : M A :=
  fun log =>
    match c log with
    | (Ret a, log') => (Ret a, log')
    | (Throw e, log') => h e log'
    end.

Definition fetch (net : request -> fetch_result) (rq : request) : M response :=
  fun log =>
    match net rq with
    | NetworkFailure e => (Throw e, (log ++ [rq])%list)
    | Responded r => (Ret r, (log ++ [rq])%list)
    end.

Definition read_json (r : response) : M jsval :=
  match json r with
  | Unparseable e => raise e
  | Parsed v => ret v
  end.

(** [v.k]: reading a property of [null] or [undefined] throws. *)
Definition member (v : jsval) (k : string) : M jsval :=
  match v with
  | JUndefined =>
      raise (TypeError ("Cannot read properties of undefined (reading '" ++ k ++ "')"))
  | JNull =>
      raise (TypeError ("Cannot read properties of null (reading '" ++ k ++ "')"))
  | _ => ret (get v k)
  end.

End Net.
Import Net.

Declare Scope js_scope.
Delimit Scope js_scope with js.
Notation "x <- c ;; k" := (bind c (fun x => k))
  (at level 61, c at next level, right associativity) : js_scope.
Local Open Scope js_scope.

(** Percent-encoding of the query text. *)
Module URI.

Definition hex_digit (n : N) : ascii :=
  if N.ltb n 10 then ascii_of_N (48 + n) else ascii_of_N (55 + n).

Definition unreserved (c : ascii) : bool :=
  (is_digit c || is_upper c || is_lower c
   || existsb (Ascii.eqb c) ["-"; "_"; "."; "!"; "~"; "*"; "'"; "("; ")"]%char)%bool.

(** One octet of the UTF-8 form, escaped. *)
Definition escape (octet : N) : string :=
  String "%" (String (hex_digit (N.div octet 16))
    (String (hex_digit (N.modulo octet 16)) EmptyString)).

(** The UTF-8 form of a code unit below 256: itself below 128, and from 128
    upwards the two octets [110000xx] and [10xxxxxx]. *)
Definition utf8 (c : ascii) : list N :=
  if N.ltb (code c) 128 then [code c]
  else [192 + N.div (code c) 64; 128 + N.modulo (code c) 64]%N.

Definition encode_unit (c : ascii) : string :=
  if unreserved c then String c EmptyString
  else String.concat "" (map escape (utf8 c)).

Fixpoint encodeURIComponent (s : string) : string :=
  match s with
  | EmptyString => EmptyString
  | String c r => encode_unit c ++ encodeURIComponent r
  end.

End URI.
Import URI.

(** ** [Api/nutrition.js]: the lookup with its fallback chain *)

Module Nutrition.

Record totals : Type := mkTotals {
  kcal : number;
  protein_g : number;
  carbs_g : number;
  fat_g : number
}.

(** The argument of [res.json(..)]. *)
Inductive json_body : Type :=
  | BError (error : string)
  | BEstimate (t : totals) (source : string).

Record http_response : Type := mkHttp {
  code : nat;
  body : json_body
}.

(** A query-string parameter: one text, or several when it is repeated. *)
Inductive qparam : Type :=
  | QOne (s : string)
  | QMany (l : list string).

Record query_params : Type := mkQuery {
  q : option qparam;
  query : option qparam
}.

Definition qparam_truthy (p : option qparam) : bool :=
  match p with
  | None => false
  | Some (QOne s) => negb (is_empty s)
  | Some (QMany _) => true
  end.

Definition qparam_toString (p : qparam) : string :=
  match p with
  | QOne s => s
  | QMany l => String.concat "," l
  end.

(** [const num = (v) => (v ? Number(v) : 0)] *)
Definition num (v : jsval) : number :=
  if truthy v then ToNumber v else zero.

(** [const round2 = (v) => Math.round((v + Number.EPSILON) * 100) / 100] *)
Definition round2 (v : number) : number :=
  div (round (mul (add v EPSILON) (of_Z 100))) (of_Z 100).

Definition hasNutriments (p : jsval) : jsval :=
  let n := or_else (get p "nutriments") (JObj []) in
  or_else (get n "energy-kcal_100g")
    (or_else (get n "energy_100g")
       (or_else (get n "proteins_100g")
          (or_else (get n "carbohydrates_100g")
             (get n "fat_100g")))).

Definition digit : regex := Cls CDigit.
Definition space : regex := Cls CSpace.

(** [\d+(?:\.\d+)?] *)
Definition decimal : regex := Seq (Plus digit) (Opt (Seq (Cls (CLit ".")) (Plus digit))).

(** [/(\d+(?:\.\d+)?)\s*(g|gram|grams)\b/i] *)
Definition re_query_grams : regex :=
  Seq (Group 1 decimal)
    (Seq (Star space)
       (Seq (Group 2 (Alt (Lits "g") (Alt (Lits "gram") (Lits "grams")))) WordB)).

(** [/(\d+(?:\.\d+)?)\s*g/i] *)
Definition re_grams : regex :=
  Seq (Group 1 decimal) (Seq (Star space) (Cls (CLit "g"))).

(** [/(\d+)\s*x\s*(\d+(?:\.\d+)?)\s*g/i] *)
Definition re_multipack : regex :=
  Seq (Group 1 (Plus digit))
    (Seq (Star space)
       (Seq (Cls (CLit "x"))
          (Seq (Star space)
             (Seq (Group 2 decimal) (Seq (Star space) (Cls (CLit "g"))))))).

Definition not_a_function : exn :=
  TypeError "product.quantity.match is not a function".

(** The portion in grams, or [None] for [null].  The first property read
    from the product is [serving_size], once the query has given nothing:
    that is where a product that is [null] or [undefined] throws. *)
Definition portionFromQueryOrProduct (query : string) (product : jsval)
    : M (option number) :=
  match exec true re_query_grams query with
  | Some m => ret (Some (parseFloat (capture 1 m)))
  | None =>
      ss <- member product "serving_size" ;;
      match
        match ss with
        | JStr s => exec true re_grams s
        | _ => None
        end
      with
      | Some mg => ret (Some (parseFloat (capture 1 mg)))
      | None =>
          let pq := get product "product_quantity" in
          let q := parseFloatOf pq in
          if (truthy pq && negb (isNaN q) && gt q zero)%bool then ret (Some q)
          else
            let qty := get product "quantity" in
            if truthy qty then
              match qty with
              | JStr s =>
                  match exec true re_grams s with
                  | Some q1 => ret (Some (parseFloat (capture 1 q1)))
                  | None =>
                      match exec true re_multipack s with
                      | Some q2 =>
                          ret (Some (mul (parseInt (capture 1 q2))
                                         (parseFloat (capture 2 q2))))
                      | None => ret None
                      end
                  end
              | _ => raise not_a_function
              end
            else ret None
      end
  end.

(** [kcalPer100] as lines 86 to 90 leave it. *)
Definition kcalPer100 (nutr : jsval) : number :=
  let kcal100 := num (get nutr "energy-kcal_100g") in
  if negb (Num.truthy kcal100) then
    let kjPer100 := num (get nutr "energy_100g") in
    if Num.truthy kjPer100 then round (div kjPer100 (of_decimal false 4184 (-3)))
    else kcal100
  else kcal100.

(** [products.find(hasNutriments)], [undefined] when nothing is found. *)
Fixpoint find_usable (products : list jsval) : jsval :=
  match products with
  | [] => JUndefined
  | p :: rest => if truthy (hasNutriments p) then p else find_usable rest
  end.

(** The body of [fetchFromOpenFoodFacts] once the search has answered. *)
Definition estimateFromProducts (query : string) (data : jsval)
    : M (option totals) :=
  let products :=
    match get data "products" with
    | JArr l => l
    | _ => []
    end in
  match products with
  | [] => ret None
  | first :: _ =>
      let p := or_else (find_usable products) first in
      if (negb (truthy p) || negb (truthy (hasNutriments p)))%bool then ret None
      else
        let nutr := or_else (get p "nutriments") (JObj []) in
        let kcal100 := kcalPer100 nutr in
        if negb (Num.truthy kcal100) then ret None
        else
          portion <- portionFromQueryOrProduct query p ;;
          let portionG :=
            match portion with
            | Some g => if Num.truthy g then g else of_Z 100
            | None => of_Z 100
            end in
          let factor := div portionG (of_Z 100) in
          ret (Some {|
            kcal := round (mul kcal100 factor);
            protein_g := round2 (mul (num (get nutr "proteins_100g")) factor);
            carbs_g :=
              round2 (mul
                (let c := num (get nutr "carbohydrates_100g") in
                 if Num.truthy c then c else num (get nutr "carbohydrates_total_g"))
                factor);
            fat_g := round2 (mul (num (get nutr "fat_100g")) factor)
          |})
  end.

Definition ninjas_request (query key : string) : request :=
  {| url := "https://api.api-ninjas.com/v1/nutrition?query=" ++ encodeURIComponent query;
     headers := [("X-Api-Key", key)] |}.

Definition off_request (query : string) : request :=
  {| url := "https://world.openfoodfacts.org/cgi/search.pl?search_terms="
            ++ encodeURIComponent query
            ++ "&search_simple=1&action=process&json=1&page_size=5";
     headers := [("User-Agent", "HFT/1.0 (vercel)")] |}.

(** One turn of [for (const it of items)]. *)
Definition add_item (t : totals) (it : jsval) : M totals :=
  calories <- member it "calories" ;;
  ret {| kcal := add (kcal t) (num calories);
         protein_g := add (protein_g t) (num (get it "protein_g"));
         carbs_g := add (carbs_g t) (num (get it "carbohydrates_total_g"));
         fat_g := add (fat_g t) (num (get it "fat_total_g")) |}.

Fixpoint sum_items (items : list jsval) (t : totals) : M totals :=
  match items with
  | [] => ret t
  | it :: rest => t' <- add_item t it ;; sum_items rest t'
  end.

Definition key_truthy (key : option string) : bool :=
  match key with
  | Some k => negb (is_empty k)
  | None => false
  end.

Section WithNetwork.

Variable net : request -> fetch_result.

Definition fetchFromApiNinjas (query : string) (key : option string)
    : M (option totals) :=
  match key with
  | Some k =>
      if is_empty k then ret None
      else
        r <- fetch net (ninjas_request query k) ;;
        if negb (ok r) then ret None
        else
          items <- read_json r ;;
          match items with
          | JArr ((_ :: _) as l) =>
              t <- sum_items l (mkTotals zero zero zero zero) ;;
              if le (kcal t) zero then ret None else ret (Some t)
          | _ => ret None
          end
  | None => ret None
  end.

Definition fetchFromOpenFoodFacts (query : string) : M (option totals) :=
  r <- fetch net (off_request query) ;;
  if negb (ok r) then ret None
  else
    data <- read_json r ;;
    estimateFromProducts query data.

(** [r && r.kcal > 0]: the result when the condition holds. *)
Definition populated (r : option totals) : option totals :=
  match r with
  | Some t => if gt (kcal t) zero then Some t else None
  | None => None
  end.

Definition none_result : totals := mkTotals zero zero zero zero.

(** [(req.query.q || req.query.query || '').toString().trim()] *)
Definition query_text (req : query_params) : string :=
  trim
    (match (if qparam_truthy (q req) then q req
            else if qparam_truthy (query req) then query req
            else None) with
     | Some p => qparam_toString p
     | None => ""
     end).

Definition handler (req : query_params) (API_NINJAS_KEY : option string)
    : M http_response :=
  let q := query_text req in
  if is_empty q then ret (mkHttp 400 (BError "Missing ?q="))
  else
    try_catch
      (ninjas <- fetchFromApiNinjas q API_NINJAS_KEY ;;
       match populated ninjas with
       | Some t => ret (mkHttp 200 (BEstimate t "api_ninjas"))
       | None =>
           off <- fetchFromOpenFoodFacts q ;;
           match populated off with
           | Some t => ret (mkHttp 200 (BEstimate t "open_food_facts"))
           | None => ret (mkHttp 200 (BEstimate none_result "none"))
           end
       end)
      (fun err => ret (mkHttp 500 (BError (String_of_exn err)))).

End WithNetwork.

End Nutrition.

(** ** [src/App.jsx]: the offline estimator *)

Module App.

Record entry : Type := mkEntry {
  key : string;
  kcal : number;
  p : number;
  c : number;
  f : number;
  unit : string
}.

(** A decimal literal of the source, [m * 10^e]. *)
Definition lit (m e : Z) : number := of_decimal false m e.

Definition MINI_DB : list entry := [
  mkEntry "roasted chicken breast" (lit 165 0) (lit 31 0) (lit 0 0) (lit 36 (-1)) "per 100g";
  mkEntry "banana" (lit 105 0) (lit 13 (-1)) (lit 27 0) (lit 3 (-1)) "per medium";
  mkEntry "oat milk" (lit 120 0) (lit 3 0) (lit 16 0) (lit 5 0) "per 250ml";
  mkEntry "cooked rice" (lit 206 0) (lit 43 (-1)) (lit 45 0) (lit 4 (-1)) "per cup";
  mkEntry "avocado" (lit 240 0) (lit 3 0) (lit 125 (-1)) (lit 22 0) "per fruit";
  mkEntry "egg" (lit 78 0) (lit 6 0) (lit 6 (-1)) (lit 5 0) "per egg";
  mkEntry "olive oil tbsp" (lit 119 0) (lit 0 0) (lit 0 0) (lit 135 (-1)) "per tbsp";
  mkEntry "protein bar" (lit 200 0) (lit 20 0) (lit 20 0) (lit 7 0) "per bar";
  mkEntry "greek yogurt 0%" (lit 59 0) (lit 10 0) (lit 36 (-1)) (lit 4 (-1)) "per 100g";
  mkEntry "pasta cooked" (lit 220 0) (lit 8 0) (lit 43 0) (lit 13 (-1)) "per cup"
].

Record macros_t : Type := mkMacros {
  protein_g : number;
  carbs_g : number;
  fat_g : number
}.

Record estimate : Type := mkEstimate {
  description : string;
  est_kcal : number;
  macros : macros_t;
  source : string
}.

(** The pattern of [d.match]: one capturing group around [\d+\.?\d*]. *)
Definition re_qty : regex :=
  Group 1 (Seq (Plus (Cls CDigit))
             (Seq (Opt (Cls (CLit "."))) (Star (Cls CDigit)))).

(** [qty]: 1, or [parseFloat(qtyMatch[1])] when the pattern matches. *)
Definition quantity (d : string) : number :=
  match exec false re_qty d with
  | Some qtyMatch => parseFloat (capture 1 qtyMatch)
  | None => lit 1 0
  end.

Definition fixed (description : string) (kcal p c f : Z) (source : string)
    : estimate :=
  mkEstimate description (lit kcal 0) (mkMacros (lit p 0) (lit c 0) (lit f 0)) source.

Definition estimateFood (description : string) : estimate :=
  let d := trim (toLowerCase description) in
  match find (fun x => includes d (key x)) MINI_DB with
  | Some hit =>
      let qty := quantity d in
      mkEstimate description (mul (kcal hit) qty)
        (mkMacros (mul (p hit) qty) (mul (c hit) qty) (mul (f hit) qty))
        ("estimation (" ++ unit hit ++ ")")
  | None =>
      if includes d "chicken" then fixed description 250 40 0 8 "estimate"
      else if includes d "beef" then fixed description 300 30 0 20 "estimate"
      else if includes d "salad" then fixed description 180 6 12 10 "estimate"
      else if includes d "sandwich" then fixed description 350 15 40 12 "estimate"
      else fixed description 250 8 30 10 "generic estimate"
  end.

End App.

(** ** [Api/nutrition.js], first variant: the single-source lookup *)

Module Legacy.

Import Nutrition.

Inductive json_body : Type :=
  | BError (error : string)
  | BTotals (t : totals) (items : list jsval).

Record http_response : Type := mkHttp {
  code : nat;
  body : json_body
}.

(** [Number(v || 0)] *)
Definition number_or_0 (v : jsval) : number :=
  ToNumber (or_else v (JNum zero)).

Definition add_item (t : totals) (it : jsval) : M totals :=
  calories <- member it "calories" ;;
  ret {| kcal := add (kcal t) (number_or_0 calories);
         protein_g := add (protein_g t) (number_or_0 (get it "protein_g"));
         carbs_g := add (carbs_g t) (number_or_0 (get it "carbohydrates_total_g"));
         fat_g := add (fat_g t) (number_or_0 (get it "fat_total_g")) |}.

Fixpoint sum_items (items : list jsval) (t : totals) : M totals :=
  match items with
  | [] => ret t
  | it :: rest => t' <- add_item t it ;; sum_items rest t'
  end.

Definition upstream_error (r : response) : exn :=
  Error ("Upstream " ++ NilEmpty.string_of_uint (Nat.to_uint (status r))
         ++ ": " ++ text r).

Section WithNetwork.

Variable net : request -> fetch_result.

Definition handler (req : query_params) (API_NINJAS_KEY : option string)
    : M http_response :=
  match (if qparam_truthy (q req) then q req
         else if qparam_truthy (query req) then query req else None) with
  | None => ret (mkHttp 400 (BError "Missing ?q="))
  | Some q =>
      match API_NINJAS_KEY with
      | Some KEY =>
          if is_empty KEY
          then ret (mkHttp 500 (BError "Missing API_NINJAS_KEY env var"))
          else
            try_catch
              (apiRes <- fetch net (ninjas_request (qparam_toString q) KEY) ;;
               if negb (ok apiRes) then raise (upstream_error apiRes)
               else
                 items <- read_json apiRes ;;
                 let items := match items with JArr l => l | _ => [] end in
                 t <- sum_items items (mkTotals zero zero zero zero) ;;
                 ret (mkHttp 200 (BTotals t items)))
              (fun err => ret (mkHttp 500 (BError (String_of_exn err))))
      | None => ret (mkHttp 500 (BError "Missing API_NINJAS_KEY env var"))
      end
  end.

End WithNetwork.

End Legacy.

(** ** The words of the specification *)

Module Spec.

(** The numeric token that starts at the head of [s]: a run of digits, then
    possibly a point and a further run of digits. *)
Definition token_at (s : string) : string :=
  let '(ip, r) := span is_digit s in
  match r with
  | String a r' =>
      if Ascii.eqb a "." then let '(fp, _) := span is_digit r' in ip ++ "." ++ fp
      else ip
  | EmptyString => ip
  end.

(** "The first numeric token (integer or decimal)" of a text. *)
Fixpoint first_numeric_token (s : string) : option string :=
  match s with
  | EmptyString => None
  | String c r => if is_digit c then Some (token_at s) else first_numeric_token r
  end.

(** "Default multiplier = 1 if none found." *)
Definition multiplier (d : string) : number :=
  match first_numeric_token d with
  | Some t => parseFloat t
  | None => of_Z 1
  end.


(** A number that is zero, finite or infinite with sign bit [s]. *)
Definition has_sign (s : bool) (x : number) : bool :=
  match x with
  | S754_zero s' | S754_infinity s' | S754_finite s' _ _ => Bool.eqb s s'
  | S754_nan => false
  end.

End Spec.
Import Spec.

(** The state the matcher reaches by reading the longest run of characters
    satisfying [p]. *)
Fixpoint advance (p : ascii -> bool) (pr : option ascii) (s : string) : state :=
  match s with
  | String c r => if p c then advance p (Some c) r else mkState pr s
  | EmptyString => mkState pr s
  end.

(** The state after an optional single character of class [cl]. *)
Definition step_opt (icase : bool) (cl : cclass) (st : state) : state :=
  match rest st with
  | String a s' => if cmatch icase cl a then mkState (Some a) s' else st
  | EmptyString => st
  end.

(** A continuation that accepts wherever it is called. *)
Definition always {R : Type} (k : @cont R) : Prop :=
  forall st caps, k st caps <> None.

(** A matcher that consults its continuation only at positions not before
    its own. *)
Definition local {R : Type} (body : state -> captures -> @cont R -> option R)
    : Prop :=
  forall st caps (k k' : @cont R),
    (forall st' caps',
        (String.length (rest st') <= String.length (rest st))%nat ->
        k st' caps' = k' st' caps') ->
    body st caps k = body st caps k'.

(** A matcher that fails when what follows it fails. *)
Definition strict {R : Type} (body : state -> captures -> @cont R -> option R)
    : Prop :=
  forall st caps, body st caps (fun _ _ => None) = None.

(** ** Concrete networks and inputs *)

Module Scenario.

Import Nutrition.

(** A network in which the exact-match endpoint behaves as [ninjas] and
    every other endpoint as [off]. *)
Definition answers (ninjas off : fetch_result) (rq : request) : fetch_result :=
  if startsWith (url rq) "https://api.api-ninjas.com/" then ninjas else off.

Definition ok_json (v : jsval) : fetch_result :=
  Responded (mkResponse true 200 "" (Parsed v)).

Definition item (calories protein : jsval) : jsval :=
  JObj [("calories", calories); ("protein_g", protein)].

Definition n (z : Z) : jsval := JNum (of_Z z).

(** Two matched items with calories 100 and 50, protein 10 and 5. *)
Definition two_items : list jsval := [item (n 100) (n 10); item (n 50) (n 5)].

(** A product of 165 kcal per 100 g whose serving size says 30 g. *)
Definition chicken : jsval :=
  JObj [("serving_size", JStr "30 g");
        ("nutriments", JObj [("energy-kcal_100g", n 165)])].

Definition products (l : list jsval) : jsval := JObj [("products", JArr l)].

Definition both_usable : request -> fetch_result :=
  answers (ok_json (JArr two_items)) (ok_json (products [chicken])).

Definition fetch_failed : exn := TypeError "fetch failed".

(** Every call fails at the network level. *)
Definition unreachable : request -> fetch_result :=
  fun _ => NetworkFailure fetch_failed.

Definition unavailable : response := mkResponse false 503 "Service Unavailable"
  (Unparseable (SyntaxError "Unexpected token S in JSON at position 0")).

Definition req (text : string) : query_params := mkQuery (Some (QOne text)) None.

(** A product that only declares the multipack quantity. *)
Definition multipack : jsval :=
  JObj [("quantity", JStr "3 x 60 g");
        ("nutriments", JObj [("energy_100g", n 836)])].


(** The no-break space U+00A0 and the letters U+00C9 and U+00E9, E with
    acute accent in upper and in lower case. *)
Definition nbsp : string := String (ascii_of_N 160) EmptyString.
Definition E_acute : string := String (ascii_of_N 201) EmptyString.
Definition e_acute : string := String (ascii_of_N 233) EmptyString.

(** A description with a table match followed by a run of 310 digits. *)
Definition huge_quantity : string :=
  "roasted chicken breast 1" ++ String.concat "" (repeat "0" 309).

End Scenario.

(** ** Further definitions for the properties of the code *)

(** The pattern without its capturing parentheses. *)
Fixpoint strip (r : regex) : regex :=
  match r with
  | Seq r1 r2 => Seq (strip r1) (strip r2)
  | Alt r1 r2 => Alt (strip r1) (strip r2)
  | Star r1 => Star (strip r1)
  | Opt r1 => Opt (strip r1)
  | Group _ r1 => strip r1
  | _ => r
  end.

(** [reaches p s st]: [st] is a position of the text [s] whose first
    character follows [p]. *)
Inductive reaches : option ascii -> string -> state -> Prop :=
  | reaches_here p s : reaches p s (mkState p s)
  | reaches_next p a s st : reaches (Some a) s st -> reaches p (String a s) st.

(** The requests the handler may issue for a query and a credential. *)
Definition ninjas_calls (query : string) (key : option string) : list request :=
  match key with
  | Some k => if is_empty k then [] else [Nutrition.ninjas_request query k]
  | None => []
  end.

Definition usable (p : jsval) : bool := truthy (Nutrition.hasNutriments p).

Definition products_of (l : list jsval) : jsval := JObj [("products", JArr l)].

(** The characters that delimit the parts of a URL. *)
Definition is_delimiter (c : ascii) : bool :=
  existsb (Ascii.eqb c) ["&"; "="; "?"; "#"; "/"; "+"; " "; ":"; ";"; ","]%char.

Fixpoint all_chars (p : ascii -> bool) (s : string) : bool :=
  match s with
  | EmptyString => true
  | String c r => (p c && all_chars p r)%bool
  end.

(** [req.query.q || req.query.query]. *)
Definition chosen_param (req : Nutrition.query_params) : option Nutrition.qparam :=
  if Nutrition.qparam_truthy (Nutrition.q req) then Nutrition.q req
  else if Nutrition.qparam_truthy (Nutrition.query req) then Nutrition.query req
  else None.

(** ** [App.jsx]: the logs, their handlers and the daily figures

    The four logs hold the records the add handlers build.  An identifier
    drawn by [uuidv4()] is an argument of the handler that draws it; the
    value of each input element of the forms is a text of the state. *)

Module Tracker.

Record water_entry : Type := mkWater {
  water_id : string;
  water_date : string;
  amountMl : number
}.

Record food_entry : Type := mkFood {
  food_id : string;
  food_date : string;
  desc : string;
  food_kcal : number;
  food_macros : App.macros_t;
  food_source : string
}.

Record exercise_entry : Type := mkExercise {
  ex_id : string;
  ex_date : string;
  type : string;
  timeMin : number;
  distanceKm : option number;
  ex_kcal : number
}.

Record weight_entry : Type := mkWeight {
  weight_id : string;
  weight_date : string;
  kg : number
}.

(** The [value] of the input elements behind the refs. *)
Record inputs : Type := mkInputs {
  waterRef : string;
  foodRef : string;
  exTypeRef : string;
  exTimeRef : string;
  exDistRef : string;
  exKcalRef : string;
  weightRef : string
}.

Record state : Type := mkState {
  water : list water_entry;
  foods : list food_entry;
  exs : list exercise_entry;
  weights : list weight_entry;
  toast : string;
  date : string;
  refs : inputs
}.

Definition BASELINE_KCAL : number := of_Z 2244.

Definition sub (x y : number) : number := SFsub prec emax x y.

(** [arr.reduce((a, b) => a + b, 0)] *)
Definition sum (arr : list number) : number := fold_left add arr zero.

(** [x || 0] on a number. *)
Definition or_0 (x : number) : number := if Num.truthy x then x else zero.

Definition dayWaterMl (st : state) : number :=
  sum (map amountMl (filter (fun w => String.eqb (water_date w) (date st)) (water st))).

Definition dayFood (st : state) : list food_entry :=
  filter (fun f => String.eqb (food_date f) (date st)) (foods st).

Definition dayFoodKcal (st : state) : number := sum (map food_kcal (dayFood st)).

Definition dayMacros (st : state) : App.macros_t :=
  App.mkMacros
    (sum (map (fun f => or_0 (App.protein_g (food_macros f))) (dayFood st)))
    (sum (map (fun f => or_0 (App.carbs_g (food_macros f))) (dayFood st)))
    (sum (map (fun f => or_0 (App.fat_g (food_macros f))) (dayFood st))).

Definition dayEx (st : state) : list exercise_entry :=
  filter (fun e => String.eqb (ex_date e) (date st)) (exs st).

Definition dayExKcal (st : state) : number :=
  sum (map (fun e => or_0 (ex_kcal e)) (dayEx st)).

Definition dayExTime (st : state) : number :=
  sum (map (fun e => or_0 (timeMin e)) (dayEx st)).

Definition netCalories (st : state) : number :=
  sub (dayFoodKcal st) (add BASELINE_KCAL (dayExKcal st)).

Definition dayWeights (st : state) : list number :=
  map kg (filter (fun w => String.eqb (weight_date w) (date st)) (weights st)).

Definition set_water (l : list water_entry) (st : state) : state :=
  mkState l (foods st) (exs st) (weights st) (toast st) (date st) (refs st).
Definition set_foods (l : list food_entry) (st : state) : state :=
  mkState (water st) l (exs st) (weights st) (toast st) (date st) (refs st).
Definition set_exs (l : list exercise_entry) (st : state) : state :=
  mkState (water st) (foods st) l (weights st) (toast st) (date st) (refs st).
Definition set_weights (l : list weight_entry) (st : state) : state :=
  mkState (water st) (foods st) (exs st) l (toast st) (date st) (refs st).
Definition set_refs (r : inputs) (st : state) : state :=
  mkState (water st) (foods st) (exs st) (weights st) (toast st) (date st) r.

(** [setToast("entered")]; the timer that clears the toast is a later event. *)
Definition showEntered (st : state) : state :=
  mkState (water st) (foods st) (exs st) (weights st) "entered" (date st) (refs st).

Definition addWater (amountMl : number) (d : string) (id : string) (st : state)
    : state :=
  if negb (Num.truthy amountMl) then st
  else showEntered (set_water (water st ++ [mkWater id d amountMl]) st).

Definition addFood (description : string) (d : string) (id : string) (st : state)
    : state :=
  if is_empty (trim description) then st
  else
    let est := App.estimateFood description in
    let rec := mkFood id d (trim description) (round (App.est_kcal est))
                 (App.macros est) (App.source est) in
    showEntered (set_foods (rec :: foods st) st).

(** The argument of [addExercise], the texts of the four inputs. *)
Record payload : Type := mkPayload {
  p_type : string;
  p_timeMin : string;
  p_distanceKm : string;
  p_kcal : string
}.

Definition addExercise (p : payload) (d : string) (id : string) (st : state)
    : state :=
  if (is_empty (p_type p) || is_empty (p_timeMin p))%bool then st
  else
    showEntered
      (set_exs
         (mkExercise id d (p_type p) (StringToNumber (p_timeMin p))
            (if is_empty (p_distanceKm p) then None
             else Some (StringToNumber (p_distanceKm p)))
            (if is_empty (p_kcal p) then zero else StringToNumber (p_kcal p))
          :: exs st) st).

Definition addWeight (kg : number) (d : string) (id : string) (st : state)
    : state :=
  if negb (Num.truthy kg) then st
  else showEntered (set_weights (mkWeight id d kg :: weights st) st).

Definition keep {A} (id_of : A -> string) (id : string) (l : list A) : list A :=
  filter (fun x => negb (String.eqb (id_of x) id)) l.

Definition deleteEntry (kind id : string) (st : state) : state :=
  let st1 := if String.eqb kind "water"
             then set_water (keep water_id id (water st)) st else st in
  let st2 := if String.eqb kind "food"
             then set_foods (keep food_id id (foods st1)) st1 else st1 in
  let st3 := if String.eqb kind "ex"
             then set_exs (keep ex_id id (exs st2)) st2 else st2 in
  if String.eqb kind "weight"
  then set_weights (keep weight_id id (weights st3)) st3 else st3.

(** [d.slice(5)] *)
Definition slice5 (d : string) : string := substring 5 (String.length d - 5) d.

Record point : Type := mkPoint {
  point_date : string;
  weight : option number
}.

(** The body of [days.map(..)] in [weightSeries], with the variable [last]
    carried from day to day. *)
Fixpoint weightSeries_from (weights : list weight_entry) (last : option number)
    (days : list string) : list point :=
  match days with
  | [] => []
  | d :: days' =>
      let entries := map kg (filter (fun w => String.eqb (weight_date w) d) weights) in
      let last' := match entries with e :: _ => Some e | [] => last end in
      mkPoint (slice5 d) last' :: weightSeries_from weights last' days'
  end.

Definition weightSeries (st : state) (days : list string) : list point :=
  weightSeries_from (weights st) None days.

(** [Number(value || 0)] on the text of an input. *)
Definition number_of_input (value : string) : number :=
  if is_empty value then zero else StringToNumber value.

Definition submitWater (id : string) (st : state) : state :=
  let val := number_of_input (waterRef (refs st)) in
  if gt val zero then
    let st1 := addWater val (date st) id st in
    let r := refs st1 in
    showEntered
      (set_refs (mkInputs "500" (foodRef r) (exTypeRef r) (exTimeRef r)
                   (exDistRef r) (exKcalRef r) (weightRef r)) st1)
  else st.

Definition submitFood (id : string) (st : state) : state :=
  let txt := trim (foodRef (refs st)) in
  if negb (is_empty txt) then
    let st1 := addFood txt (date st) id st in
    let r := refs st1 in
    showEntered
      (set_refs (mkInputs (waterRef r) "" (exTypeRef r) (exTimeRef r)
                   (exDistRef r) (exKcalRef r) (weightRef r)) st1)
  else st.

Definition submitExercise (id : string) (st : state) : state :=
  let r0 := refs st in
  let p := mkPayload (if is_empty (exTypeRef r0) then "Run" else exTypeRef r0)
             (exTimeRef r0) (exDistRef r0) (exKcalRef r0) in
  if negb (is_empty (p_timeMin p)) then
    let st1 := addExercise p (date st) id st in
    let r := refs st1 in
    showEntered
      (set_refs (mkInputs (waterRef r) (foodRef r) "Run" "" "" "" (weightRef r)) st1)
  else st.

Definition submitWeight (id : string) (st : state) : state :=
  let kg := number_of_input (weightRef (refs st)) in
  if gt kg zero then
    let st1 := addWeight kg (date st) id st in
    let r := refs st1 in
    showEntered
      (set_refs (mkInputs (waterRef r) (foodRef r) (exTypeRef r) (exTimeRef r)
                   (exDistRef r) (exKcalRef r) "") st1)
  else st.

End Tracker.

(** ** Concrete logs and answers *)

Module Samples.

Import Tracker.

Definition no_inputs : inputs := mkInputs "750" " 2 Bananas " "" "" "" "" "81.5".

(** A day with one glass of water, one meal and one weighing. *)
Definition monday : state :=
  mkState [mkWater "w1" "2024-05-06" (of_Z 250)]
    [mkFood "f1" "2024-05-06" "egg" (of_Z 78)
       (App.mkMacros (of_Z 6) (of_decimal false 6 (-1)) (of_Z 5))
       "estimation (per egg)"]
    []
    [mkWeight "g1" "2024-05-06" (of_Z 82)]
    "" "2024-05-06" no_inputs.


(** A product without nutriments. *)
Definition bare : jsval := JObj [("product_name", JStr "Mystery")].

End Samples.

(** * Properties *)

(** ** Facts about texts *)

Lemma length_app (a b : string) :
  String.length (a ++ b) = (String.length a + String.length b)%nat.
Proof. induction a; simpl; congruence. Qed.

Lemma substring_prefix (a b : string) :
  substring 0 (String.length a) (a ++ b) = a.
Proof.
  induction a as [|c a IH]; simpl.
  - destruct b; reflexivity.
  - rewrite IH. reflexivity.
Qed.

Lemma span_app p : forall s, s = fst (span p s) ++ snd (span p s).
Proof.
  induction s as [|c r IH]; simpl; [reflexivity|].
  destruct (p c); [|reflexivity].
  destruct (span p r); simpl in *. congruence.
Qed.

Lemma span_idem p : forall s,
  span p (snd (span p s)) = (EmptyString, snd (span p s)).
Proof.
  induction s as [|c r IH]; simpl; [reflexivity|].
  destruct (p c) eqn:Hc.
  - destruct (span p r); simpl in *. exact IH.
  - simpl. rewrite Hc. reflexivity.
Qed.

Lemma digit_not_space c : is_digit c = true -> is_space c = false.
Proof.
  unfold is_digit, is_space, between. intros H.
  apply andb_true_iff in H. destruct H as [H1 H2].
  apply N.leb_le in H1. apply N.leb_le in H2.
  apply orb_false_iff. split; [apply orb_false_iff; split|].
  - apply andb_false_iff. right. apply N.leb_gt. lia.
  - apply N.eqb_neq. lia.
  - apply N.eqb_neq. lia.
Qed.

Lemma digit_code c : is_digit c = true -> (48 <= code c <= 57)%N.
Proof.
  unfold is_digit, between. intros H.
  apply andb_true_iff in H. destruct H as [H1 H2].
  apply N.leb_le in H1. apply N.leb_le in H2. lia.
Qed.

Lemma digit_not_char c (x : ascii) :
  is_digit c = true -> (code x < 48 \/ 57 < code x)%N -> Ascii.eqb c x = false.
Proof.
  intros Hc Hx. apply Ascii.eqb_neq. intros ->.
  apply digit_code in Hc. lia.
Qed.

(** ** Facts about values *)

Lemma member_of v k log :
  nullish v = false -> member v k log = (Ret (get v k), log).
Proof. destruct v; simpl; intros H; try discriminate; reflexivity. Qed.

Lemma member_log v k log : snd (member v k log) = log.
Proof. destruct v; reflexivity. Qed.

(** Only an object holds a property. *)
Lemma get_defined v k : get v k <> JUndefined -> nullish v = false.
Proof. destruct v; simpl; intros H; try reflexivity; congruence. Qed.

Lemma get_text v k s : get v k = JStr s -> nullish v = false.
Proof. intros H. apply (get_defined v k). rewrite H. discriminate. Qed.


(** Once the query has given no portion, the product's [serving_size] is
    read: the step every later rule of the portion inference goes through. *)
Ltac read_product Hq Hobj :=
  unfold Nutrition.portionFromQueryOrProduct; rewrite Hq; unfold bind at 1;
  rewrite (member_of _ _ _ Hobj); cbv beta iota.

(** ** Facts about the matcher *)

Section MatcherFacts.

Context {R : Type}.
Variable icase : bool.

Lemma orelse_some (x y : option R) : x <> None -> orelse x y = x.
Proof. destruct x; [reflexivity | congruence]. Qed.

Lemma progress_step pr a s' :
  progress (mkState pr (String a s')) (mkState (Some a) s') = true.
Proof. unfold progress; simpl. apply Nat.ltb_lt. lia. Qed.

(** A greedy star over one character class, followed by something that
    accepts everywhere, reads the whole run. *)
Lemma star_class cl : forall fuel st caps (k : @cont R),
  always k -> (String.length (rest st) <= fuel)%nat ->
  star (run icase (Cls cl)) fuel st caps k
  = k (advance (cmatch icase cl) (prev st) (rest st)) caps.
Proof.
  induction fuel as [|fuel IH]; intros [pr s] caps k Hk Hlen; simpl in *.
  - destruct s; simpl in *; [reflexivity | lia].
  - destruct s as [|a s']; simpl; [reflexivity|].
    destruct (cmatch icase cl a) eqn:Hc; [|reflexivity].
    rewrite progress_step.
    rewrite (IH (mkState (Some a) s') caps k Hk) by (simpl in *; lia).
    simpl. apply orelse_some. apply Hk.
Qed.

Lemma run_star_class cl st caps (k : @cont R) :
  always k ->
  run icase (Star (Cls cl)) st caps k
  = k (advance (cmatch icase cl) (prev st) (rest st)) caps.
Proof. intros Hk. simpl. apply star_class; [assumption | lia]. Qed.

Lemma run_opt_class cl st caps (k : @cont R) :
  always k -> run icase (Opt (Cls cl)) st caps k = k (step_opt icase cl st) caps.
Proof.
  intros Hk. unfold step_opt. simpl. destruct st as [pr s]; simpl.
  destruct s as [|a s']; simpl; [reflexivity|].
  destruct (cmatch icase cl a); [|reflexivity].
  rewrite progress_step. apply orelse_some, Hk.
Qed.

Lemma star_local (body : state -> captures -> @cont R -> option R) :
  local body -> forall fuel, local (star body fuel).
Proof.
  intros Hb. induction fuel as [|fuel IH]; intros st caps k k' Hk; simpl.
  - apply Hk. lia.
  - rewrite (Hk st caps) by lia. f_equal.
    apply Hb. intros st' caps' Hle.
    destruct (progress st st'); [|reflexivity].
    apply IH. intros st'' caps'' Hle'. apply Hk. lia.
Qed.

Lemma run_local r : @local R (run icase r).
Proof.
  induction r as [|cl|r1 IH1 r2 IH2|r1 IH1 r2 IH2|r1 IH1|r1 IH1|i r1 IH1|];
    intros st caps k k' Hk; simpl.
  - apply Hk. lia.
  - destruct (rest st) as [|a s'] eqn:Hs; [reflexivity|].
    destruct (cmatch icase cl a); [|reflexivity].
    apply Hk. simpl. lia.
  - apply IH1. intros st' caps' Hle. apply IH2.
    intros st'' caps'' Hle'. apply Hk. lia.
  - rewrite (IH1 st caps k k' Hk), (IH2 st caps k k' Hk). reflexivity.
  - apply (star_local _ IH1). exact Hk.
  - rewrite (Hk st caps) by lia. f_equal.
    apply IH1. intros st' caps' Hle.
    destruct (progress st st'); [apply Hk; lia | reflexivity].
  - apply IH1. intros st' caps' Hle. apply Hk. exact Hle.
  - destruct (at_boundary st); [apply Hk; lia | reflexivity].
Qed.

Lemma star_strict (body : state -> captures -> @cont R -> option R) :
  local body -> strict body -> forall fuel, strict (star body fuel).
Proof.
  intros Hl Hs. induction fuel as [|fuel IH]; intros st caps; simpl; [reflexivity|].
  rewrite (Hl st caps _ (fun _ _ => None)).
  - rewrite Hs. reflexivity.
  - intros st' caps' _. destruct (progress st st'); [apply IH | reflexivity].
Qed.

Lemma run_strict r : @strict R (run icase r).
Proof.
  induction r as [|cl|r1 IH1 r2 IH2|r1 IH1 r2 IH2|r1 IH1|r1 IH1|i r1 IH1|];
    intros st caps; simpl.
  - reflexivity.
  - destruct (rest st) as [|a s']; [reflexivity|].
    destruct (cmatch icase cl a); reflexivity.
  - rewrite (run_local r1 st caps
               (fun st' caps' => run icase r2 st' caps' (fun _ _ => None))
               (fun _ _ => None)); [apply IH1|].
    intros st' caps' _. apply IH2.
  - rewrite IH1, IH2. reflexivity.
  - apply star_strict; [apply run_local | exact IH1].
  - rewrite (run_local r1 st caps
               (fun st' caps' => if progress st st' then None else None)
               (fun _ _ => None)); [rewrite IH1; reflexivity|].
    intros st' caps' _. destruct (progress st st'); reflexivity.
  - apply IH1.
  - destruct (at_boundary st); reflexivity.
Qed.

(** One more unit of fuel than the length of the input changes nothing. *)
Lemma star_fuel_succ (body : state -> captures -> @cont R -> option R) :
  local body -> strict body ->
  forall n st caps k, (String.length (rest st) <= n)%nat ->
    star body (S n) st caps k = star body n st caps k.
Proof.
  intros Hl Hs. induction n as [|n IH]; intros st caps k Hlen.
  - simpl. rewrite (Hl st caps _ (fun _ _ => None)).
    + rewrite Hs. reflexivity.
    + intros st' caps' Hle. unfold progress.
      replace (String.length (rest st') <? String.length (rest st))%nat with false; [reflexivity|].
      symmetry. apply Nat.ltb_ge. lia.
  - change (star body (S (S n)) st caps k)
      with (orelse (body st caps (fun st' caps' =>
              if progress st st' then star body (S n) st' caps' k else None))
             (k st caps)).
    change (star body (S n) st caps k)
      with (orelse (body st caps (fun st' caps' =>
              if progress st st' then star body n st' caps' k else None))
             (k st caps)).
    f_equal. apply Hl. intros st' caps' Hle.
    destruct (progress st st') eqn:Hp; [|reflexivity].
    apply IH. unfold progress in Hp. apply Nat.ltb_lt in Hp. lia.
Qed.

(** The fuel of a star, the length of what is left to read, never runs out:
    any larger amount gives the same result. *)
Lemma star_fuel_enough r st caps (k : @cont R) extra :
  star (run icase r) (String.length (rest st) + extra) st caps k
  = star (run icase r) (String.length (rest st)) st caps k.
Proof.
  induction extra as [|extra IH].
  - rewrite Nat.add_0_r. reflexivity.
  - rewrite Nat.add_succ_r, <- IH.
    apply star_fuel_succ; [apply run_local | apply run_strict | lia].
Qed.

(** The star satisfies the equation of the unbounded greedy repetition: one
    more iteration that makes progress, then the star again, or else what
    follows. *)
Lemma run_star_equation r st caps (k : @cont R) :
  run icase (Star r) st caps k
  = orelse
      (run icase r st caps (fun st' caps' =>
         if progress st st' then run icase (Star r) st' caps' k else None))
      (k st caps).
Proof.
  cbn [run]. destruct (String.length (rest st)) as [|n] eqn:Hlen.
  - cbn [star].
    rewrite (run_local r st caps
               (fun st' caps' =>
                  if progress st st'
                  then star (run icase r) (String.length (rest st')) st' caps' k
                  else None)
               (fun _ _ => None)).
    + rewrite run_strict. reflexivity.
    + intros st' caps' _. unfold progress. rewrite Hlen. reflexivity.
  - cbn [star]. f_equal. apply run_local. intros st' caps' _.
    destruct (progress st st') eqn:Hp; [|reflexivity].
    unfold progress in Hp. apply Nat.ltb_lt in Hp. rewrite Hlen in Hp.
    replace n with (String.length (rest st') + (n - String.length (rest st')))%nat
      by lia.
    apply star_fuel_enough.
Qed.

End MatcherFacts.

Lemma advance_rest p : forall s pr, rest (advance p pr s) = snd (span p s).
Proof.
  induction s as [|c r IH]; intros pr; simpl; [reflexivity|].
  destruct (p c); [rewrite IH; destruct (span p r); reflexivity | reflexivity].
Qed.

Lemma advance_span p pr s :
  exists pr', advance p pr s = mkState pr' (snd (span p s)).
Proof.
  exists (prev (advance p pr s)). rewrite <- advance_rest with (pr := pr).
  destruct (advance p pr s); reflexivity.
Qed.

Lemma consumed_app pr pr' (a b : string) :
  consumed (mkState pr (a ++ b)) (mkState pr' b) = a.
Proof.
  unfold consumed; simpl. rewrite length_app.
  replace (String.length a + String.length b - String.length b)%nat
    with (String.length a) by lia.
  apply substring_prefix.
Qed.

(** The quantity pattern, tried at one position, succeeds exactly on a
    digit and captures the numeric token that starts there. *)
Lemma run_re_qty pr (s : string) :
  run false App.re_qty (mkState pr s) [] (fun _ caps => Some caps)
  = match s with
    | String c _ => if is_digit c then Some [(1%nat, token_at s)] else None
    | EmptyString => None
    end.
Proof.
  destruct s as [|c r]; [reflexivity|].
  unfold App.re_qty, Plus.
  cbn [run rest]. cbn [cmatch].
  destruct (is_digit c) eqn:Hc; [|reflexivity].
  set (k1 := fun (st' : state) (caps' : captures) =>
               Some ((1%nat, consumed (mkState pr (String c r)) st') :: caps')).
  assert (Hk1 : always k1) by (intros st caps; unfold k1; congruence).
  set (k2 := fun (st' : state) (caps' : captures) =>
               run false (Star (Cls CDigit)) st' caps' k1).
  assert (Hk2 : always k2).
  { intros st caps. unfold k2. rewrite run_star_class by assumption. apply Hk1. }
  set (k3 := fun (st' : state) (caps' : captures) =>
               run false (Opt (Cls (CLit "."))) st' caps' k2).
  assert (Hk3 : always k3).
  { intros st caps. unfold k3. rewrite run_opt_class by assumption. apply Hk2. }
  change (run false (Star (Cls CDigit)) (mkState (Some c) r) [] k3
          = Some [(1%nat, token_at (String c r))]).
  rewrite run_star_class by assumption.
  unfold k3. rewrite run_opt_class by assumption.
  unfold k2. rewrite run_star_class by assumption.
  unfold k1. f_equal. f_equal. f_equal.
  change (cmatch false CDigit) with is_digit.
  unfold token_at. simpl span. rewrite Hc.
  cbn [prev rest].
  destruct (advance_span is_digit (Some c) r) as [pr1 E1]. rewrite E1.
  pose proof (span_app is_digit r) as Hr.
  pose proof (span_idem is_digit r) as Hid.
  destruct (span is_digit r) as [ip r1]. simpl in Hr, Hid. simpl snd.
  unfold step_opt. cbn [rest prev].
  destruct r1 as [|a r2].
  - cbn [advance]. subst r. apply (consumed_app pr pr1 (String c ip) "").
  - cbn [cmatch]. rewrite (Ascii.eqb_sym "." a).
    destruct (Ascii.eqb a ".") eqn:Hdot.
    + cbn [prev rest].
      destruct (advance_span is_digit (Some a) r2) as [pr2 E2]. rewrite E2.
      pose proof (span_app is_digit r2) as Hr2.
      destruct (span is_digit r2) as [fp r3]. simpl in Hr2. simpl snd.
      apply Ascii.eqb_eq in Hdot. subst a.
      replace (String c r) with ((String c ip ++ "." ++ fp) ++ r3).
      * apply consumed_app.
      * subst r. rewrite Hr2. simpl. f_equal.
        clear. induction ip; simpl; [reflexivity | congruence].
    + cbn [prev rest].
      destruct (advance_span is_digit pr1 (String a r2)) as [pr2 E2]. rewrite E2.
      rewrite Hid. simpl snd. subst r.
      apply (consumed_app pr pr2 (String c ip) (String a r2)).
Qed.

(** [d.match] with the quantity pattern finds the first numeric token. *)
Lemma exec_re_qty (s : string) :
  exec false App.re_qty s
  = match first_numeric_token s with
    | Some t => Some [(1%nat, t)]
    | None => None
    end.
Proof.
  unfold exec. generalize (@None ascii).
  induction s as [|c r IH]; intros pr.
  - reflexivity.
  - unfold search; fold search. rewrite run_re_qty.
    cbn [first_numeric_token].
    destruct (is_digit c); [reflexivity | apply IH].
Qed.

Lemma quantity_multiplier (d : string) : App.quantity d = multiplier d.
Proof.
  unfold App.quantity, multiplier. rewrite exec_re_qty.
  destruct (first_numeric_token d); reflexivity.
Qed.

Lemma token_at_digit c r :
  is_digit c = true -> exists t, token_at (String c r) = String c t.
Proof.
  intros Hc. unfold token_at. simpl. rewrite Hc.
  destruct (span is_digit r) as [ip r1].
  destruct r1 as [|a r2]; [eexists; reflexivity|].
  destruct (Ascii.eqb a "."); [|eexists; reflexivity].
  destruct (span is_digit r2). eexists. reflexivity.
Qed.

(** The first numeric token starts with a digit. *)
Lemma first_numeric_token_digit : forall s t,
  first_numeric_token s = Some t ->
  exists c t', t = String c t' /\ is_digit c = true.
Proof.
  induction s as [|c r IH]; intros t H; simpl in H; [discriminate|].
  destruct (is_digit c) eqn:Hc.
  - injection H as <-. destruct (token_at_digit c r Hc) as [t' Ht].
    exists c, t'. split; assumption.
  - apply IH. exact H.
Qed.

(** ** Facts about numbers *)

Lemma shr_1_nonneg mrs : 0 <= shr_m mrs -> 0 <= shr_m (shr_1 mrs).
Proof.
  destruct mrs as [m r s]; simpl.
  destruct m as [|[p|p|]|[p|p|]]; simpl; lia.
Qed.

Lemma iter_pos_invariant {A} (P : A -> Prop) (f : A -> A) :
  (forall x, P x -> P (f x)) -> forall n x, P x -> P (iter_pos f n x).
Proof.
  intros Hf. induction n as [n IH|n IH|]; intros x Hx; simpl; auto.
Qed.

Lemma shr_nonneg mrs e n : 0 <= shr_m mrs -> 0 <= shr_m (fst (shr mrs e n)).
Proof.
  intros H. unfold shr. destruct n; simpl; try assumption.
  apply (iter_pos_invariant (fun x => 0 <= shr_m x)); [apply shr_1_nonneg | assumption].
Qed.

Lemma shr_fexp_nonneg m e l : 0 <= m -> 0 <= shr_m (fst (shr_fexp prec emax m e l)).
Proof.
  intros H. unfold shr_fexp. apply shr_nonneg.
  destruct l as [|[]]; simpl; assumption.
Qed.

Lemma round_nearest_even_nonneg m l : 0 <= m -> 0 <= round_nearest_even m l.
Proof.
  intros H. unfold round_nearest_even.
  destruct l as [|[]]; try lia. destruct (Z.even m); lia.
Qed.

Lemma binary_round_aux_sign s m e l :
  0 <= m -> has_sign s (binary_round_aux prec emax s m e l) = true.
Proof.
  intros H. unfold binary_round_aux.
  pose proof (shr_fexp_nonneg m e l H) as H1.
  destruct (shr_fexp prec emax m e l) as [mrs' e']. simpl in H1.
  pose proof (shr_fexp_nonneg _ e' loc_Exact
                (round_nearest_even_nonneg _ (loc_of_shr_record mrs') H1)) as H2.
  destruct (shr_fexp prec emax _ e' loc_Exact) as [mrs'' e'']. simpl in H2.
  destruct (shr_m mrs''); simpl.
  - apply eqb_reflx.
  - match goal with |- context [if ?b then _ else _] => destruct b end;
      simpl; apply eqb_reflx.
  - lia.
Qed.

Lemma binary_round_sign s m e : has_sign s (binary_round prec emax s m e) = true.
Proof.
  unfold binary_round. destruct (shl_align _ _ _) as [mz ez].
  apply binary_round_aux_sign. lia.
Qed.

Lemma binary_normalize_sign v neg :
  (neg = true -> v <= 0) -> (neg = false -> 0 <= v) ->
  has_sign neg (binary_normalize prec emax v 0 neg) = true.
Proof.
  intros Ht Hf. unfold binary_normalize.
  destruct v as [|p|p].
  - simpl. apply eqb_reflx.
  - destruct neg; [specialize (Ht eq_refl); lia | apply binary_round_sign].
  - destruct neg; [apply binary_round_sign | specialize (Hf eq_refl); lia].
Qed.

Lemma of_decimal_sign neg m e : has_sign neg (of_decimal neg m e) = true.
Proof.
  unfold of_decimal. destruct m as [|p|p]; try (simpl; apply eqb_reflx).
  assert (Hnn : forall e', 0 <= e' ->
            has_sign neg (binary_normalize prec emax
              (if neg then - (Z.pos p * 10 ^ e') else Z.pos p * 10 ^ e') 0 neg) = true).
  { intros e' He'.
    assert (0 < Z.pos p * 10 ^ e')
      by (apply Z.mul_pos_pos; [lia | apply Z.pow_pos_nonneg; lia]).
    apply binary_normalize_sign.
    - intros ->. lia.
    - intros ->. lia. }
  destruct e as [|k|k]; [apply Hnn; lia | apply Hnn; lia |].
  unfold SFdiv_core_binary.
  set (m' := match _ with Z.pos _ => _ | _ => _ end).
  assert (Hm' : 0 <= m').
  { unfold m'. destruct (_ - _ - _); try lia. apply Z.shiftl_nonneg. lia. }
  assert (Hp : 0 < Z.pow_pos 10 k)
    by (rewrite Z.pow_pos_fold; apply Z.pow_pos_nonneg; lia).
  pose proof (Z.div_pos m' _ Hm' Hp) as Hq. unfold Z.div in Hq.
  destruct (Z.div_eucl m' (Z.pow_pos 10 k)) as [q r].
  apply binary_round_aux_sign. exact Hq.
Qed.

Lemma has_sign_not_lt x : has_sign false x = true -> lt x zero = false.
Proof. destruct x as [[]|[]| |[] m e]; simpl; intros H; try discriminate; reflexivity. Qed.

Lemma has_sign_not_nan s x : has_sign s x = true -> isNaN x = false.
Proof. destruct x; simpl; intros H; try discriminate; reflexivity. Qed.

Lemma mul_finite_sign mx ex y :
  has_sign false y = true -> has_sign false (mul (S754_finite false mx ex) y) = true.
Proof.
  destruct y as [[]|[]| |[] my ey]; simpl; intros H; try discriminate; try reflexivity.
  apply binary_round_aux_sign. lia.
Qed.

Lemma mul_not_negative x y :
  has_sign false x = true -> has_sign false y = true -> lt (mul x y) zero = false.
Proof.
  destruct x as [[]|[]| |[] mx ex]; simpl; intros Hx; try discriminate;
  destruct y as [[]|[]| |[] my ey]; simpl; intros Hy; try discriminate; try reflexivity.
  apply has_sign_not_lt. apply binary_round_aux_sign. lia.
Qed.

Lemma digit_not_Infinity c r :
  is_digit c = true -> startsWith (String c r) "Infinity" = false.
Proof.
  intros Hc. cbn [startsWith].
  rewrite Ascii.eqb_sym, (digit_not_char c "I") by first [assumption | right; reflexivity].
  reflexivity.
Qed.

Lemma parseFloat_digit c r :
  is_digit c = true -> exists m e, parseFloat (String c r) = of_decimal false m e.
Proof.
  intros Hc. unfold parseFloat. cbn [trimStart].
  rewrite (digit_not_space c Hc).
  unfold read_literal, read_sign.
  rewrite (digit_not_char c "-"), (digit_not_char c "+")
    by first [assumption | left; reflexivity].
  rewrite (digit_not_Infinity c r Hc).
  cbn [span]. rewrite Hc.
  destruct (span is_digit r) as [ip s2].
  destruct s2 as [|a s3].
  - cbn [is_empty andb]. destruct (read_exponent ""). eexists; eexists; reflexivity.
  - destruct (Ascii.eqb a ".").
    + destruct (span is_digit s3) as [fp r']. cbn [is_empty andb].
      destruct (read_exponent r'). eexists; eexists; reflexivity.
    + cbn [is_empty andb]. destruct (read_exponent (String a s3)).
      eexists; eexists; reflexivity.
Qed.

(** ** The offline estimator *)

Section LocalEstimator.

Import App.

Lemma MINI_DB_values :
  Forall (fun x =>
            (exists m e, kcal x = S754_finite false m e)
            /\ has_sign false (p x) = true
            /\ has_sign false (c x) = true
            /\ has_sign false (f x) = true) MINI_DB.
Proof.
  unfold MINI_DB.
  repeat (constructor; [repeat split; try reflexivity;
                        eexists; eexists; vm_compute; reflexivity|]).
  constructor.
Qed.

Lemma multiplier_sign d : has_sign false (multiplier d) = true.
Proof.
  unfold multiplier. destruct (first_numeric_token d) as [t|] eqn:Ht.
  - destruct (first_numeric_token_digit d t Ht) as (ch & t' & -> & Hd).
    destruct (parseFloat_digit ch t' Hd) as (m & e & ->).
    apply of_decimal_sign.
  - reflexivity.
Qed.

Lemma find_hit (d : string) (e : entry) :
  In e MINI_DB -> includes d (key e) = true ->
  exists hit, find (fun x => includes d (key x)) MINI_DB = Some hit.
Proof.
  intros Hin Hinc.
  destruct (find (fun x => includes d (key x)) MINI_DB) as [hit|] eqn:Hf.
  - exists hit. reflexivity.
  - pose proof (find_none _ _ Hf e Hin) as Hn. simpl in Hn. congruence.
Qed.

(** C6 as the specification words it fails: a description that contains a
    table key is tagged with the unit of the entry, never ["local-table"]. *)
Lemma C6_provenance_counterexample :
  includes (trim (toLowerCase "2 Bananas")) "banana" = true
  /\ source (estimateFood "2 Bananas") = "estimation (per medium)"
  /\ source (estimateFood "2 Bananas") <> "local-table".
Proof. repeat split; try reflexivity. vm_compute. discriminate. Qed.

(** C6, amended: when the lowercased, trimmed description contains the key
    of a table entry, the estimator uses the first such entry in table
    order, tags the result [estimation (<unit of the entry>)], and returns
    kcal and macros equal to the values of the entry times the multiplier,
    the first numeric token of the text read as a number, or 1 without one. *)
Theorem C6_table_match (description : string) (e : entry) :
  let d := trim (toLowerCase description) in
  let r := estimateFood description in
  In e MINI_DB -> includes d (key e) = true ->
  exists hit,
    find (fun x => includes d (key x)) MINI_DB = Some hit
    /\ In hit MINI_DB /\ includes d (key hit) = true
    /\ source r = "estimation (" ++ unit hit ++ ")"
    /\ est_kcal r = mul (kcal hit) (multiplier d)
    /\ macros r = mkMacros (mul (p hit) (multiplier d))
                           (mul (c hit) (multiplier d))
                           (mul (f hit) (multiplier d)).
Proof.
  intros d r Hin Hinc.
  destruct (find_hit d e Hin Hinc) as [hit Hf].
  exists hit. destruct (find_some _ _ Hf) as [Hhit Hkey].
  subst r. unfold estimateFood. fold d. rewrite Hf.
  rewrite quantity_multiplier. simpl.
  repeat split; solve [assumption | reflexivity].
Qed.

Lemma C6_table_match_witness :
  source (estimateFood "2 Bananas") = "estimation (per medium)"
  /\ est_kcal (estimateFood "2 Bananas") = of_Z 210.
Proof.
  destruct (C6_table_match "2 Bananas"
              (mkEntry "banana" (lit 105 0) (lit 13 (-1)) (lit 27 0) (lit 3 (-1))
                 "per medium"))
    as (hit & Hf & _ & _ & Hs & Hk & _).
  - simpl. tauto.
  - reflexivity.
  - vm_compute in Hf. injection Hf as <-. split; [exact Hs | reflexivity].
Defined.

Lemma MINI_DB_macros :
  Forall (fun x =>
            (p x = zero \/ exists m e, p x = S754_finite false m e)
            /\ (c x = zero \/ exists m e, c x = S754_finite false m e)
            /\ (exists m e, f x = S754_finite false m e)) MINI_DB.
Proof.
  unfold MINI_DB.
  repeat (constructor;
          [repeat split;
           first [left; reflexivity
                 | right; eexists; eexists; vm_compute; reflexivity
                 | eexists; eexists; vm_compute; reflexivity]|]).
  constructor.
Qed.

(** [0 * y] for a [y] that is not negative: NaN exactly when [y] is
    [Infinity]. *)
Lemma mul_zero_nan y :
  has_sign false y = true -> (isNaN (mul zero y) = true <-> y = Infinity).
Proof.
  destruct y as [[]|[]| |[] m e]; simpl; intros H; try discriminate;
    split; intros E; try discriminate; reflexivity.
Qed.

(** A table value times the quantity is NaN exactly when the value is 0 and
    the quantity [Infinity]. *)
Lemma macro_nan v qty :
  (v = zero \/ exists m e, v = S754_finite false m e) ->
  has_sign false qty = true ->
  (isNaN (mul v qty) = true <-> v = zero /\ qty = Infinity).
Proof.
  intros [->|(m & e & ->)] Hq.
  - rewrite (mul_zero_nan qty Hq). tauto.
  - rewrite (has_sign_not_nan false _ (mul_finite_sign m e qty Hq)).
    split; [discriminate | intros [H _]; discriminate].
Qed.

(** C9 as the specification words it fails: on a description that matches
    a table entry and holds a run of digits too long for a finite number the
    quantity is [Infinity], kcal is [Infinity], and the carbohydrates, whose
    table value is 0, are [0 * Infinity]: NaN, not a number. *)
Lemma C9_nan_macro_counterexample :
  quantity (trim (toLowerCase Scenario.huge_quantity)) = Infinity
  /\ est_kcal (estimateFood Scenario.huge_quantity) = Infinity
  /\ carbs_g (macros (estimateFood Scenario.huge_quantity)) = NaN
  /\ isNaN (carbs_g (macros (estimateFood Scenario.huge_quantity))) = true.
Proof. repeat split; vm_compute; reflexivity. Qed.

(** C9, amended: for every description the offline estimator returns an
    estimate for that description; kcal is never below zero and never NaN,
    and no macro is below zero.  A macro is NaN in one case only: the text
    matches a table entry whose value for that macro is 0 and the quantity
    read from the text is [Infinity]; this can happen to the protein and
    the carbohydrates and never to the fat, and whenever the quantity is not
    [Infinity] no field is NaN. *)
Theorem C9_estimate_always_numeric (description : string) :
  let d := trim (toLowerCase description) in
  let hit := find (fun x => includes d (key x)) MINI_DB in
  let r := estimateFood description in
  App.description r = description
  /\ lt (est_kcal r) zero = false
  /\ isNaN (est_kcal r) = false
  /\ lt (protein_g (macros r)) zero = false
  /\ lt (carbs_g (macros r)) zero = false
  /\ lt (fat_g (macros r)) zero = false
  /\ (isNaN (protein_g (macros r)) = true
      <-> exists x, hit = Some x /\ p x = zero /\ quantity d = Infinity)
  /\ (isNaN (carbs_g (macros r)) = true
      <-> exists x, hit = Some x /\ c x = zero /\ quantity d = Infinity)
  /\ isNaN (fat_g (macros r)) = false
  /\ (quantity d <> Infinity ->
      isNaN (protein_g (macros r)) = false
      /\ isNaN (carbs_g (macros r)) = false).
Proof.
  intros d hit r. subst r hit. unfold estimateFood. fold d.
  destruct (find (fun x => includes d (key x)) MINI_DB) as [x|] eqn:Hf.
  - destruct (find_some _ _ Hf) as [Hin _].
    pose proof (proj1 (Forall_forall _ _) MINI_DB_values x Hin)
      as ((m & e & Hk) & Hp & Hc & Hfat).
    pose proof (proj1 (Forall_forall _ _) MINI_DB_macros x Hin)
      as (Hp0 & Hc0 & (mf & ef & Hf0)).
    assert (Hq : has_sign false (quantity d) = true)
      by (rewrite quantity_multiplier; apply multiplier_sign).
    pose proof (macro_nan (p x) (quantity d) Hp0 Hq) as Hpn.
    pose proof (macro_nan (c x) (quantity d) Hc0 Hq) as Hcn.
    cbn [App.description est_kcal macros protein_g carbs_g fat_g].
    pose proof (mul_finite_sign m e _ Hq) as Hkcal. rewrite <- Hk in Hkcal.
    pose proof (mul_finite_sign mf ef _ Hq) as Hfs. rewrite <- Hf0 in Hfs.
    repeat apply conj.
    + reflexivity.
    + apply has_sign_not_lt, Hkcal.
    + apply (has_sign_not_nan false), Hkcal.
    + apply mul_not_negative; assumption.
    + apply mul_not_negative; assumption.
    + apply mul_not_negative; assumption.
    + intros H. exists x. split; [reflexivity | apply Hpn, H].
    + intros (y & [= <-] & H). apply Hpn, H.
    + intros H. exists x. split; [reflexivity | apply Hcn, H].
    + intros (y & [= <-] & H). apply Hcn, H.
    + apply (has_sign_not_nan false), Hfs.
    + intros H. split.
      * destruct (isNaN (mul (p x) (quantity d))) eqn:E; [|reflexivity].
        exfalso. apply H. apply Hpn. reflexivity.
      * destruct (isNaN (mul (c x) (quantity d))) eqn:E; [|reflexivity].
        exfalso. apply H. apply Hcn. reflexivity.
  - assert (Hno : forall (P : entry -> Prop),
              (exists y : entry, @None entry = Some y /\ P y) -> False)
      by (intros P (y & H & _); discriminate).
    destruct (includes d "chicken");
      [|destruct (includes d "beef");
        [|destruct (includes d "salad"); [|destruct (includes d "sandwich")]]];
      cbn [fixed App.description est_kcal macros protein_g carbs_g fat_g];
      (repeat apply conj; try reflexivity;
       try (intros H; discriminate H);
       try (intros H; exfalso; exact (Hno _ H));
       try (intros _; split; reflexivity)).
Qed.

(** C10: the quantity is the first numeric token anywhere in the text, the
    digits of the matched key included; "greek yogurt 0%" matches the entry
    of that key, its multiplier is 0, and kcal and all macros are 0. *)
Theorem C10_digits_of_the_key :
  (forall d, quantity d = multiplier d)
  /\ find (fun x => includes "greek yogurt 0%" (key x)) MINI_DB
     = Some (mkEntry "greek yogurt 0%" (lit 59 0) (lit 10 0) (lit 36 (-1))
               (lit 4 (-1)) "per 100g")
  /\ first_numeric_token "greek yogurt 0%" = Some "0"
  /\ quantity "greek yogurt 0%" = zero
  /\ estimateFood "greek yogurt 0%"
     = mkEstimate "greek yogurt 0%" zero (mkMacros zero zero zero)
         "estimation (per 100g)".
Proof.
  split; [exact quantity_multiplier|].
  repeat split; vm_compute; reflexivity.
Qed.

End LocalEstimator.

(** ** The lookup and its provider clients *)

(** The first variant of the handler has no second source: there a missing
    credential ends the request with a 500 response, before any request. *)
Lemma legacy_missing_credential net req key log :
  chosen_param req <> None -> Nutrition.key_truthy key = false ->
  Legacy.handler net req key log
  = (Ret (Legacy.mkHttp 500 (Legacy.BError "Missing API_NINJAS_KEY env var")), log).
Proof.
  intros Hq Hkey. unfold Legacy.handler. fold (chosen_param req).
  destruct (chosen_param req) as [qv|]; [|congruence].
  destruct key as [k|]; [|reflexivity].
  unfold Nutrition.key_truthy in Hkey.
  destruct (is_empty k); [reflexivity | discriminate Hkey].
Qed.

Section Lookup.

Import Nutrition.

Variable net : request -> fetch_result.

(** Reading a portion, summing items and estimating from products issue no
    request. *)
Lemma portion_log query product log :
  snd (portionFromQueryOrProduct query product log) = log.
Proof.
  unfold portionFromQueryOrProduct.
  destruct (exec true re_query_grams query); [reflexivity|].
  unfold bind. pose proof (member_log product "serving_size" log) as Hm.
  destruct (member product "serving_size" log) as [[ss|e] log1]; simpl in Hm;
    subst log1; [|reflexivity].
  repeat match goal with
  | |- context [match ?x with _ => _ end] => destruct x
  | |- context [if ?x then _ else _] => destruct x
  end; reflexivity.
Qed.

Lemma estimate_log query data log :
  snd (estimateFromProducts query data log) = log.
Proof.
  unfold estimateFromProducts.
  destruct (match get data "products" with JArr l => l | _ => [] end) as [|first l];
    [reflexivity|].
  match goal with |- context [if ?x then _ else _] => destruct x end; [reflexivity|].
  match goal with |- context [if ?x then _ else _] => destruct x end; [reflexivity|].
  unfold bind. pose proof (portion_log query (or_else (find_usable (first :: l)) first) log) as H.
  destruct (portionFromQueryOrProduct query _ log) as [[o|e] log']; simpl in H; subst;
    reflexivity.
Qed.

Lemma sum_items_log items : forall t log, snd (sum_items items t log) = log.
Proof.
  induction items as [|it rest IH]; intros t log; simpl; [reflexivity|].
  unfold bind, add_item, member, bind.
  destruct it; simpl; try apply IH; reflexivity.
Qed.

Lemma off_log query log :
  snd (fetchFromOpenFoodFacts net query log) = (log ++ [off_request query])%list.
Proof.
  unfold fetchFromOpenFoodFacts, bind, fetch.
  destruct (net (off_request query)) as [e|r]; [reflexivity|].
  destruct (ok r); simpl; [|reflexivity].
  unfold read_json. destruct (json r); simpl; [reflexivity|].
  apply estimate_log.
Qed.

Lemma ninjas_log query key log :
  snd (fetchFromApiNinjas net query key log)
  = match key with
    | Some k => if is_empty k then log else (log ++ [ninjas_request query k])%list
    | None => log
    end.
Proof.
  unfold fetchFromApiNinjas. destruct key as [k|]; [|reflexivity].
  destruct (is_empty k); [reflexivity|].
  unfold bind, fetch.
  destruct (net (ninjas_request query k)) as [e|r]; [reflexivity|].
  destruct (ok r); simpl; [|reflexivity].
  unfold read_json. destruct (json r) as [e|v]; simpl; [reflexivity|].
  destruct v as [| | | | |[|it l]|]; try reflexivity.

  pose proof (sum_items_log (it :: l) (mkTotals zero zero zero zero)
                (log ++ [ninjas_request query k])%list) as H.
  destruct (sum_items (it :: l) _ _) as [[t|e] log']; simpl in H; subst; [|reflexivity].
  destruct (le (kcal t) zero); reflexivity.
Qed.

Lemma requests_differ query query' k :
  off_request query <> ninjas_request query' k.
Proof.
  intros H. apply (f_equal url) in H. unfold off_request, ninjas_request in H.
  simpl in H. discriminate H.
Qed.

(** Without a credential the exact-match client answers absent at once. *)
Lemma ninjas_without_key query key log :
  key_truthy key = false -> fetchFromApiNinjas net query key log = (Ret None, log).
Proof.
  unfold fetchFromApiNinjas, key_truthy. destruct key as [k|]; [|reflexivity].
  destruct (is_empty k); [reflexivity | discriminate].
Qed.

(** The response once the exact-match source has answered [ninjas]. *)
Lemma handler_unfold req key log :
  is_empty (query_text req) = false ->
  handler net req key log
  = match fetchFromApiNinjas net (query_text req) key log with
    | (Throw e, log1) => (Ret (mkHttp 500 (BError (String_of_exn e))), log1)
    | (Ret ninjas, log1) =>
        match populated ninjas with
        | Some t => (Ret (mkHttp 200 (BEstimate t "api_ninjas")), log1)
        | None =>
            match fetchFromOpenFoodFacts net (query_text req) log1 with
            | (Throw e, log2) => (Ret (mkHttp 500 (BError (String_of_exn e))), log2)
            | (Ret off, log2) =>
                match populated off with
                | Some t => (Ret (mkHttp 200 (BEstimate t "open_food_facts")), log2)
                | None => (Ret (mkHttp 200 (BEstimate none_result "none")), log2)
                end
            end
        end
    end.
Proof.
  intros Hq. unfold handler. rewrite Hq. unfold try_catch, bind.
  destruct (fetchFromApiNinjas net (query_text req) key log) as [[ninjas|e] log1];
    [|reflexivity].
  destruct (populated ninjas); [reflexivity|].
  destruct (fetchFromOpenFoodFacts net (query_text req) log1) as [[off|e] log2];
    [|reflexivity].
  destruct (populated off); reflexivity.
Qed.


(** C1, amended: for a query that is not empty once trimmed, the handler
    answers with the exact-match result tagged ["api_ninjas"] whenever that
    client returns a result with kcal > 0, and then issues no request to the
    community database; otherwise, when the exact-match client returned
    without such a result, it answers with the community-database result
    tagged ["open_food_facts"] if that one has kcal > 0; and when both
    clients return absent it answers with kcal, protein_g, carbs_g and fat_g
    all 0 and source ["none"]. *)
Theorem C1_fallback_order (req : query_params) (key : option string) :
  let q := query_text req in
  is_empty q = false ->
  (forall t log,
      fetchFromApiNinjas net q key [] = (Ret (Some t), log) ->
      gt (kcal t) zero = true ->
      handler net req key [] = (Ret (mkHttp 200 (BEstimate t "api_ninjas")), log)
      /\ (forall query, ~ In (off_request query) log))
  /\ (forall r log t log',
      fetchFromApiNinjas net q key [] = (Ret r, log) ->
      populated r = None ->
      fetchFromOpenFoodFacts net q log = (Ret (Some t), log') ->
      gt (kcal t) zero = true ->
      handler net req key []
      = (Ret (mkHttp 200 (BEstimate t "open_food_facts")), log'))
  /\ (forall log log',
      fetchFromApiNinjas net q key [] = (Ret None, log) ->
      fetchFromOpenFoodFacts net q log = (Ret None, log') ->
      handler net req key []
      = (Ret (mkHttp 200 (BEstimate (mkTotals zero zero zero zero) "none")), log')).
Proof.
  intros q Hq. split; [|split].
  - intros t log Hn Hk. split.
    { rewrite (handler_unfold req key [] Hq). fold q. rewrite Hn.
      unfold populated. rewrite Hk. reflexivity. }
    intros query Hin.
    pose proof (ninjas_log q key []) as Hlog. rewrite Hn in Hlog. simpl in Hlog.
    destruct key as [k|]; [|subst log; exact Hin].
    destruct (is_empty k); subst log; [exact Hin|].
    destruct Hin as [Hin|[]]. symmetry in Hin.
    exact (requests_differ query q k Hin).
  - intros r log t log' Hn Hp Ho Hk.
    rewrite (handler_unfold req key [] Hq). fold q. rewrite Hn, Hp, Ho.
    unfold populated. rewrite Hk. reflexivity.
  - intros log log' Hn Ho.
    rewrite (handler_unfold req key [] Hq). fold q. rewrite Hn. simpl.
    rewrite Ho. reflexivity.
Qed.

(** C2, amended: a provider client whose call returns a non-success status
    returns absent, and the handler goes on to the next source; a call that
    fails at the network level, or whose body is not JSON, makes the client
    raise, the handler's [catch] turns the exception into a 500 response,
    and no further source is consulted. *)
Theorem C2_provider_failures (query k : string) (log : list request) :
  is_empty k = false ->
  (forall r, net (ninjas_request query k) = Responded r -> ok r = false ->
     fetchFromApiNinjas net query (Some k) log
     = (Ret None, (log ++ [ninjas_request query k])%list))
  /\ (forall r, net (off_request query) = Responded r -> ok r = false ->
     fetchFromOpenFoodFacts net query log
     = (Ret None, (log ++ [off_request query])%list))
  /\ (forall e, net (ninjas_request query k) = NetworkFailure e ->
     fetchFromApiNinjas net query (Some k) log
     = (Throw e, (log ++ [ninjas_request query k])%list))
  /\ (forall e, net (off_request query) = NetworkFailure e ->
     fetchFromOpenFoodFacts net query log
     = (Throw e, (log ++ [off_request query])%list))
  /\ (forall r e, net (ninjas_request query k) = Responded r -> ok r = true ->
     json r = Unparseable e ->
     fetchFromApiNinjas net query (Some k) log
     = (Throw e, (log ++ [ninjas_request query k])%list))
  /\ (forall r e, net (off_request query) = Responded r -> ok r = true ->
     json r = Unparseable e ->
     fetchFromOpenFoodFacts net query log
     = (Throw e, (log ++ [off_request query])%list))
  /\ (forall req r, query_text req = query -> is_empty query = false ->
     net (ninjas_request query k) = Responded r -> ok r = false ->
     handler net req (Some k) []
     = match fetchFromOpenFoodFacts net query [ninjas_request query k] with
       | (Throw e, log2) => (Ret (mkHttp 500 (BError (String_of_exn e))), log2)
       | (Ret off, log2) =>
           match populated off with
           | Some t => (Ret (mkHttp 200 (BEstimate t "open_food_facts")), log2)
           | None => (Ret (mkHttp 200 (BEstimate none_result "none")), log2)
           end
       end)
  /\ (forall req key e log1, query_text req = query -> is_empty query = false ->
     fetchFromApiNinjas net query key [] = (Throw e, log1) ->
     handler net req key []
     = (Ret (mkHttp 500 (BError (String_of_exn e))), log1)
     /\ (forall query', ~ In (off_request query') log1))
  /\ (forall req key r e log1 log2, query_text req = query ->
     is_empty query = false ->
     fetchFromApiNinjas net query key [] = (Ret r, log1) ->
     populated r = None ->
     fetchFromOpenFoodFacts net query log1 = (Throw e, log2) ->
     handler net req key []
     = (Ret (mkHttp 500 (BError (String_of_exn e))), log2)).
Proof.
  intros Hk.
  assert (Hnon : forall r, net (ninjas_request query k) = Responded r ->
            ok r = false -> forall l,
            fetchFromApiNinjas net query (Some k) l
            = (Ret None, (l ++ [ninjas_request query k])%list)).
  { intros r Hr Hok l. unfold fetchFromApiNinjas, bind, fetch.
    rewrite Hk, Hr, Hok. reflexivity. }
  repeat apply conj.
  - intros r Hr Hok. apply (Hnon r Hr Hok).
  - intros r Hr Hok. unfold fetchFromOpenFoodFacts, bind, fetch.
    rewrite Hr, Hok. reflexivity.
  - intros e He. unfold fetchFromApiNinjas, bind, fetch. rewrite Hk, He. reflexivity.
  - intros e He. unfold fetchFromOpenFoodFacts, bind, fetch. rewrite He. reflexivity.
  - intros r e Hr Hok Hj. unfold fetchFromApiNinjas, bind, fetch, read_json.
    rewrite Hk, Hr, Hok, Hj. reflexivity.
  - intros r e Hr Hok Hj. unfold fetchFromOpenFoodFacts, bind, fetch, read_json.
    rewrite Hr, Hok, Hj. reflexivity.
  - intros req r Hq Hne Hr Hok. rewrite handler_unfold by congruence.
    rewrite Hq, (Hnon r Hr Hok). reflexivity.
  - intros req key e log1 Hq Hne Hn. split.
    + rewrite handler_unfold by congruence. rewrite Hq, Hn. reflexivity.
    + intros query' Hin.
      pose proof (ninjas_log query key []) as Hlog. rewrite Hn in Hlog. simpl in Hlog.
      destruct key as [k'|]; [|subst log1; exact Hin].
      destruct (is_empty k'); subst log1; [exact Hin|].
      destruct Hin as [Hin|[]]. symmetry in Hin.
      exact (requests_differ query' query k' Hin).
  - intros req key r e log1 log2 Hq Hne Hn Hp Ho.
    rewrite handler_unfold by congruence. rewrite Hq, Hn, Hp, Ho. reflexivity.
Qed.

(** C3, amended: when the credential is absent (or empty) the exact-match
    client returns absent without issuing a request.  The handler with the
    fallback chain then answers as the community database alone decides: it
    succeeds with status 200 whenever that client returns, its only request
    being the one to the community database.  The single-source handler,
    the first variant of the file, fails the request instead: given a query
    it answers 500 "Missing API_NINJAS_KEY env var" without any request. *)
Theorem C3_missing_credential (req : query_params) (key : option string) :
  key_truthy key = false ->
  (forall query log, fetchFromApiNinjas net query key log = (Ret None, log))
  /\ (forall log,
        handler net req key log
        = if is_empty (query_text req)
          then (Ret (mkHttp 400 (BError "Missing ?q=")), log)
          else
            match fetchFromOpenFoodFacts net (query_text req) log with
            | (Throw e, log2) => (Ret (mkHttp 500 (BError (String_of_exn e))), log2)
            | (Ret off, log2) =>
                match populated off with
                | Some t => (Ret (mkHttp 200 (BEstimate t "open_food_facts")), log2)
                | None => (Ret (mkHttp 200 (BEstimate none_result "none")), log2)
                end
            end)
  /\ (forall off log2,
        is_empty (query_text req) = false ->
        fetchFromOpenFoodFacts net (query_text req) [] = (Ret off, log2) ->
        log2 = [off_request (query_text req)]
        /\ exists t source,
             handler net req key [] = (Ret (mkHttp 200 (BEstimate t source)), log2))
  /\ (forall log,
        chosen_param req <> None ->
        Legacy.handler net req key log
        = (Ret (Legacy.mkHttp 500
                  (Legacy.BError "Missing API_NINJAS_KEY env var")), log)).
Proof.
  intros Hkey.
  assert (Hall : forall log,
        handler net req key log
        = if is_empty (query_text req)
          then (Ret (mkHttp 400 (BError "Missing ?q=")), log)
          else
            match fetchFromOpenFoodFacts net (query_text req) log with
            | (Throw e, log2) => (Ret (mkHttp 500 (BError (String_of_exn e))), log2)
            | (Ret off, log2) =>
                match populated off with
                | Some t => (Ret (mkHttp 200 (BEstimate t "open_food_facts")), log2)
                | None => (Ret (mkHttp 200 (BEstimate none_result "none")), log2)
                end
            end).
  { intros log. destruct (is_empty (query_text req)) eqn:Hq.
    - unfold handler. rewrite Hq. reflexivity.
    - rewrite (handler_unfold req key log Hq).
      rewrite (ninjas_without_key _ key log Hkey). reflexivity. }
  split; [|split; [|split]].
  - intros query log. apply ninjas_without_key, Hkey.
  - exact Hall.
  - intros off log2 Hq Ho. split.
    + pose proof (off_log (query_text req) []) as Hlog. rewrite Ho in Hlog.
      exact Hlog.
    + rewrite Hall, Hq, Ho. destruct (populated off) as [t|]; eauto.
  - intros log Hq. apply legacy_missing_credential; assumption.
Qed.

End Lookup.

Section LookupExamples.

Import Nutrition Scenario.

(** C1 as the specification words it fails: with both providers usable the
    answer carries the exact-match result, tagged ["api_ninjas"] and not
    ["exact-match-api"]. *)
Lemma C1_tag_counterexample :
  fetchFromApiNinjas both_usable "200g chicken" (Some "secret") []
  = (Ret (Some (mkTotals (of_Z 150) (of_Z 15) zero zero)),
     [ninjas_request "200g chicken" "secret"])
  /\ handler both_usable (req "200g chicken") (Some "secret") []
     = (Ret (mkHttp 200 (BEstimate (mkTotals (of_Z 150) (of_Z 15) zero zero)
                           "api_ninjas")),
        [ninjas_request "200g chicken" "secret"])
  /\ fst (handler both_usable (req "200g chicken") (Some "secret") [])
     <> Ret (mkHttp 200 (BEstimate (mkTotals (of_Z 150) (of_Z 15) zero zero)
                           "exact-match-api")).
Proof.
  repeat split; try (vm_compute; reflexivity).
  vm_compute. discriminate.
Qed.

Lemma C1_fallback_order_witness :
  handler both_usable (req "200g chicken") (Some "secret") []
  = (Ret (mkHttp 200 (BEstimate (mkTotals (of_Z 150) (of_Z 15) zero zero)
                        "api_ninjas")),
     [ninjas_request "200g chicken" "secret"]).
Proof.
  refine (proj1 (proj1 (C1_fallback_order both_usable (req "200g chicken")
                          (Some "secret") _) _ _ _ _)).
  - reflexivity.
  - vm_compute. reflexivity.
  - reflexivity.
Defined.

(** C2 as the specification words it fails: when the call fails at the
    network level the exact-match client raises instead of returning absent,
    and the request ends in a 500 response. *)
Lemma C2_network_failure_counterexample :
  fetchFromApiNinjas unreachable "apple" (Some "secret") []
  = (Throw fetch_failed, [ninjas_request "apple" "secret"])
  /\ fst (fetchFromApiNinjas unreachable "apple" (Some "secret") []) <> Ret None
  /\ handler unreachable (req "apple") (Some "secret") []
     = (Ret (mkHttp 500 (BError "TypeError: fetch failed")),
        [ninjas_request "apple" "secret"]).
Proof.
  repeat split; try (vm_compute; reflexivity).
  vm_compute. discriminate.
Qed.

Lemma C2_provider_failures_witness :
  fetchFromApiNinjas
    (answers (Responded unavailable) (ok_json (products [chicken])))
    "200g chicken" (Some "secret") []
  = (Ret None, [ninjas_request "200g chicken" "secret"]).
Proof.
  refine (proj1 (C2_provider_failures
                   (answers (Responded unavailable) (ok_json (products [chicken])))
                   "200g chicken" "secret" [] _) unavailable _ _);
    reflexivity.
Defined.

(** C3 as the specification words it fails: the handler of lines 2 to 26
    fails the request when the credential is absent, although the community
    database would have answered. *)
Lemma C3_single_source_counterexample :
  key_truthy None = false
  /\ Legacy.handler both_usable (req "200g chicken") None []
     = (Ret (Legacy.mkHttp 500 (Legacy.BError "Missing API_NINJAS_KEY env var")),
        [])
  /\ fst (fetchFromOpenFoodFacts both_usable "200g chicken" [])
     = Ret (Some (mkTotals (of_Z 330) zero zero zero)).
Proof. repeat split; vm_compute; reflexivity. Qed.

Lemma C3_missing_credential_witness :
  fetchFromApiNinjas both_usable "200g chicken" None [] = (Ret None, [])
  /\ handler both_usable (req "200g chicken") None []
     = (Ret (mkHttp 200 (BEstimate (mkTotals (of_Z 330) zero zero zero)
                           "open_food_facts")),
        [off_request "200g chicken"])
  /\ Legacy.handler both_usable (req "200g chicken") None []
     = (Ret (Legacy.mkHttp 500 (Legacy.BError "Missing API_NINJAS_KEY env var")),
        []).
Proof.
  destruct (C3_missing_credential both_usable (req "200g chicken") None eq_refl)
    as (Hclient & Hhandler & _ & Hlegacy).
  split; [apply Hclient|]. split.
  - rewrite Hhandler. vm_compute. reflexivity.
  - apply Hlegacy. discriminate.
Defined.

End LookupExamples.

(** ** Portions, sums and energy *)

Section Portions.

Import Nutrition.





(** C4 on the code: for a query without a gram pattern and a product whose
    serving size and package quantity give nothing and whose quantity is
    "3 x 60 g", the gram pattern of the fourth rule is tried before the
    multipack pattern and reads "60 g": the portion is 60 grams.  The
    multipack pattern would read 3 and 60, 180 grams, but is never tried. *)
Theorem C4_multipack_reads_60 (query : string) (product : jsval)
    (log : list request) :
  exec true re_query_grams query = None ->
  match get product "serving_size" with
  | JStr s => exec true re_grams s
  | _ => None
  end = None ->
  (truthy (get product "product_quantity")
   && negb (isNaN (parseFloatOf (get product "product_quantity")))
   && gt (parseFloatOf (get product "product_quantity")) zero)%bool = false ->
  get product "quantity" = JStr "3 x 60 g" ->
  portionFromQueryOrProduct query product log = (Ret (Some (of_Z 60)), log)
  /\ of_Z 60 <> of_Z 180
  /\ exec true re_grams "3 x 60 g" = Some [(1%nat, "60")]
  /\ exec true re_multipack "3 x 60 g" = Some [(2%nat, "60"); (1%nat, "3")]
  /\ mul (parseInt "3") (parseFloat "60") = of_Z 180.
Proof.
  intros Hq Hs Hpq Hqty. split.
  - read_product Hq (get_text _ _ _ Hqty). rewrite Hs, Hpq, Hqty. reflexivity.
  - repeat split; try (vm_compute; reflexivity).
    vm_compute. discriminate.
Qed.




(** The loop stops at the first item whose [calories] cannot be read. *)
Lemma sum_items_throws l1 it l2 e : forall t log,
  Forall (fun it => it <> JNull /\ it <> JUndefined) l1 ->
  (forall log', member it "calories" log' = (Throw e, log')) ->
  sum_items (l1 ++ it :: l2) t log = (Throw e, log).
Proof.
  induction l1 as [|x l1 IH]; intros t log Hall He.
  - cbn [app sum_items]. unfold bind at 1, add_item, bind. rewrite He. reflexivity.
  - inversion Hall as [|y l [Hn Hu] Hrest]; subst.
    cbn [app sum_items]. unfold bind at 1.
    destruct (add_item t x log) as [[t'|e'] log1] eqn:Ha.
    + assert (log1 = log).
      { unfold add_item, bind, member in Ha. destruct x; try congruence;
          injection Ha as _ <-; reflexivity. }
      subst. apply IH; assumption.
    + unfold add_item, bind, member in Ha. destruct x; try congruence; discriminate.
Qed.

Lemma sum_items_null l1 l2 t log :
  Forall (fun it => it <> JNull /\ it <> JUndefined) l1 ->
  sum_items (l1 ++ JNull :: l2) t log
  = (Throw (TypeError "Cannot read properties of null (reading 'calories')"), log).
Proof. intros Hall. apply sum_items_throws; [exact Hall | reflexivity]. Qed.


End Portions.

Section Clients.

Import Nutrition.

Variable net : request -> fetch_result.



End Clients.

Section ClientExamples.

Import Nutrition Scenario.



Lemma C4_multipack_reads_60_witness :
  portionFromQueryOrProduct "samosa" multipack [] = (Ret (Some (of_Z 60)), []).
Proof.
  refine (proj1 (C4_multipack_reads_60 "samosa" multipack [] _ _ _ _));
    reflexivity.
Defined.



End ClientExamples.

(** * Further properties of the code *)

(** ** Positions and captures of the matcher *)

Section Reach.

Variable icase : bool.

Lemma reaches_trans p s st st' :
  reaches p s st -> reaches (prev st) (rest st) st' -> reaches p s st'.
Proof.
  induction 1 as [p s|p a s st H IH]; intros H'; [exact H'|].
  apply reaches_next, IH, H'.
Qed.

Lemma reaches_self st : reaches (prev st) (rest st) st.
Proof. destruct st. apply reaches_here. Qed.

Lemma star_reaches {R} (body : state -> captures -> @cont R -> option R) :
  (forall st caps k x, body st caps k = Some x ->
     exists st' caps', reaches (prev st) (rest st) st' /\ k st' caps' = Some x) ->
  forall fuel st caps k x, star body fuel st caps k = Some x ->
     exists st' caps', reaches (prev st) (rest st) st' /\ k st' caps' = Some x.
Proof.
  intros Hb. induction fuel as [|fuel IH]; intros st caps k x H; simpl in H.
  - exists st, caps. split; [apply reaches_self | exact H].
  - destruct (body st caps _) as [y|] eqn:Hy; simpl in H.
    + injection H as ->.
      destruct (Hb _ _ _ _ Hy) as (st1 & caps1 & Hr1 & Hk1).
      destruct (progress st st1); [|discriminate].
      destruct (IH _ _ _ _ Hk1) as (st2 & caps2 & Hr2 & Hk2).
      exists st2, caps2. split; [eapply reaches_trans; eassumption | exact Hk2].
    + exists st, caps. split; [apply reaches_self | exact H].
Qed.

(** A successful run hands a later position of the same text to what
    follows the pattern. *)
Lemma run_reaches {R} r : forall st caps (k : @cont R) x,
  run icase r st caps k = Some x ->
  exists st' caps', reaches (prev st) (rest st) st' /\ k st' caps' = Some x.
Proof.
  induction r as [|cl|r1 IH1 r2 IH2|r1 IH1 r2 IH2|r1 IH1|r1 IH1|i r1 IH1|];
    intros st caps k x H; simpl in H.
  - exists st, caps. split; [apply reaches_self | exact H].
  - destruct st as [p s]; simpl in *. destruct s as [|a s']; [discriminate|].
    destruct (cmatch icase cl a); [|discriminate].
    exists (mkState (Some a) s'), caps. split; [|exact H].
    apply reaches_next, reaches_here.
  - destruct (IH1 _ _ _ _ H) as (st1 & caps1 & Hr1 & H1).
    destruct (IH2 _ _ _ _ H1) as (st2 & caps2 & Hr2 & H2).
    exists st2, caps2. split; [eapply reaches_trans; eassumption | exact H2].
  - destruct (run icase r1 st caps k) as [y|] eqn:Hy; simpl in H.
    + injection H as ->. exact (IH1 _ _ _ _ Hy).
    + exact (IH2 _ _ _ _ H).
  - eapply star_reaches; [exact IH1 | exact H].
  - destruct (run icase r1 st caps _) as [y|] eqn:Hy; simpl in H.
    + injection H as ->.
      destruct (IH1 _ _ _ _ Hy) as (st1 & caps1 & Hr1 & Hk1).
      destruct (progress st st1); [|discriminate].
      exists st1, caps1. split; assumption.
    + exists st, caps. split; [apply reaches_self | exact H].
  - destruct (IH1 _ _ _ _ H) as (st1 & caps1 & Hr1 & H1).
    exists st1, ((i, consumed st st1) :: caps1). split; assumption.
  - destruct (at_boundary st); [|discriminate].
    exists st, caps. split; [apply reaches_self | exact H].
Qed.

Lemma orelse_none {R} (x y : option R) : orelse x y = None <-> x = None /\ y = None.
Proof.
  destruct x as [a|]; simpl.
  - split; [discriminate | intros [H _]; discriminate].
  - split; [intros H; split; [reflexivity | exact H] | intros [_ H]; exact H].
Qed.

Lemma star_strip {R R'} (body : state -> captures -> @cont R -> option R)
    (body' : state -> captures -> @cont R' -> option R') :
  (forall st caps caps' k k',
     (forall st1 c1 c1', k st1 c1 = None <-> k' st1 c1' = None) ->
     (body st caps k = None <-> body' st caps' k' = None)) ->
  forall fuel st caps caps' k k',
     (forall st1 c1 c1', k st1 c1 = None <-> k' st1 c1' = None) ->
     (star body fuel st caps k = None <-> star body' fuel st caps' k' = None).
Proof.
  intros Hb. induction fuel as [|fuel IH]; intros st caps caps' k k' Hk; simpl.
  - apply Hk.
  - rewrite !orelse_none.
    rewrite (Hb st caps caps' _
               (fun st' c' => if progress st st' then star body' fuel st' c' k' else None)).
    + rewrite (Hk st caps caps'). reflexivity.
    + intros st1 c1 c1'. destruct (progress st st1); [apply IH, Hk | easy].
Qed.

(** Whether a run succeeds depends neither on the capturing parentheses nor
    on the captures made so far. *)
Lemma run_strip {R R'} r : forall st caps caps' (k : @cont R) (k' : @cont R'),
  (forall st1 c1 c1', k st1 c1 = None <-> k' st1 c1' = None) ->
  (run icase r st caps k = None <-> run icase (strip r) st caps' k' = None).
Proof.
  induction r as [|cl|r1 IH1 r2 IH2|r1 IH1 r2 IH2|r1 IH1|r1 IH1|i r1 IH1|];
    intros st caps caps' k k' Hk; simpl.
  - apply Hk.
  - destruct (rest st) as [|a s']; [easy|].
    destruct (cmatch icase cl a); [apply Hk | easy].
  - apply IH1. intros st1 c1 c1'. apply IH2, Hk.
  - rewrite !orelse_none. rewrite (IH1 st caps caps' k k' Hk), (IH2 st caps caps' k k' Hk).
    reflexivity.
  - apply star_strip; [|exact Hk]. intros. apply IH1. assumption.
  - rewrite !orelse_none.
    rewrite (IH1 st caps caps' _ (fun st' c' => if progress st st' then k' st' c' else None)).
    + rewrite (Hk st caps caps'). reflexivity.
    + intros st1 c1 c1'. destruct (progress st st1); [apply Hk | easy].
  - apply IH1. intros st1 c1 c1'. apply Hk.
  - destruct (at_boundary st); [apply Hk | easy].
Qed.

Lemma search_some r : forall s p x,
  search icase r p s = Some x ->
  exists st, reaches p s st /\ run icase r st [] (fun _ caps => Some caps) = Some x.
Proof.
  induction s as [|a s IH]; intros p x H; simpl in H.
  - destruct (run icase r (mkState p "") [] _) as [y|] eqn:Hy; [|discriminate].
    injection H as ->. exists (mkState p ""). split; [apply reaches_here | exact Hy].
  - destruct (run icase r (mkState p (String a s)) [] _) as [y|] eqn:Hy.
    + injection H as ->. exists (mkState p (String a s)).
      split; [apply reaches_here | exact Hy].
    + destruct (IH _ _ H) as (st & Hr & Hrun).
      exists st. split; [apply reaches_next, Hr | exact Hrun].
Qed.

Lemma search_found r p s st :
  reaches p s st ->
  run icase r st [] (fun _ caps => Some caps) <> None ->
  search icase r p s <> None.
Proof.
  induction 1 as [p s|p a s st H IH]; intros Hrun.
  - destruct s; simpl;
      destruct (run icase r _ [] _); congruence.
  - simpl. destruct (run icase r (mkState p (String a s)) [] _); [congruence|].
    apply IH, Hrun.
Qed.

End Reach.

Import Nutrition.

(** Any text in which the multipack pattern matches holds a match of the
    plain gram pattern. *)
Lemma multipack_implies_grams s :
  exec true re_grams s = None -> exec true re_multipack s = None.
Proof.
  intros Hg. destruct (exec true re_multipack s) as [x|] eqn:Hm; [|reflexivity].
  exfalso. unfold exec in *.
  destruct (search_some true _ _ _ _ Hm) as (st0 & Hr0 & Hrun).
  unfold re_multipack in Hrun.
  remember (Seq (Group 2 decimal) (Seq (Star space) (Cls (CLit "g")))) as tail
    eqn:Htail.
  change (run true (Seq ?a ?b) ?st ?c ?k)
    with (run true a st c (fun st' caps' => run true b st' caps' k)) in Hrun.
  apply run_reaches in Hrun. destruct Hrun as (st1 & c1 & Hr1 & Hrun).
  change (run true (Seq ?a ?b) ?st ?c ?k)
    with (run true a st c (fun st' caps' => run true b st' caps' k)) in Hrun.
  apply run_reaches in Hrun. destruct Hrun as (st2 & c2 & Hr2 & Hrun).
  change (run true (Seq ?a ?b) ?st ?c ?k)
    with (run true a st c (fun st' caps' => run true b st' caps' k)) in Hrun.
  apply run_reaches in Hrun. destruct Hrun as (st3 & c3 & Hr3 & Hrun).
  change (run true (Seq ?a ?b) ?st ?c ?k)
    with (run true a st c (fun st' caps' => run true b st' caps' k)) in Hrun.
  apply run_reaches in Hrun. destruct Hrun as (st4 & c4 & Hr4 & Hrun).
  assert (Hreach : reaches None s st4).
  { eapply reaches_trans; [|exact Hr4]. eapply reaches_trans; [|exact Hr3].
    eapply reaches_trans; [|exact Hr2]. eapply reaches_trans; [|exact Hr1].
    exact Hr0. }
  apply (search_found true re_grams None s st4 Hreach); [|exact Hg].
  intros Hnone.
  assert (Hk : forall (st1 : state) (c1 c1' : captures),
             (fun (_ : state) (caps : captures) => Some caps) st1 c1 = None
             <-> (fun (_ : state) (caps : captures) => Some caps) st1 c1' = None)
    by (intros; split; discriminate).
  apply (run_strip true re_grams st4 [] [] _ _ Hk) in Hnone.
  change (strip re_grams)
    with (strip (Seq (Group 2 decimal) (Seq (Star space) (Cls (CLit "g"))))) in Hnone.
  rewrite <- Htail in Hnone.
  apply (run_strip true tail st4 c4 [] _ _ Hk) in Hnone.
  congruence.
Qed.

(** The multipack pattern of the fourth rule never decides a portion: a
    quantity text without a plain gram match has no multipack match either,
    so once the first three rules have failed such a text gives no portion. *)
Theorem multipack_rule_never_decides (query : string) (product : jsval)
    (s : string) (log : list request) :
  exec true re_query_grams query = None ->
  match get product "serving_size" with
  | JStr t => exec true re_grams t
  | _ => None
  end = None ->
  (truthy (get product "product_quantity")
   && negb (isNaN (parseFloatOf (get product "product_quantity")))
   && gt (parseFloatOf (get product "product_quantity")) zero)%bool = false ->
  get product "quantity" = JStr s ->
  exec true re_grams s = None ->
  exec true re_multipack s = None
  /\ portionFromQueryOrProduct query product log = (Ret None, log).
Proof.
  intros Hq Hs Hpq Hqty Hg.
  pose proof (multipack_implies_grams s Hg) as Hm. split; [exact Hm|].
  read_product Hq (get_text _ _ _ Hqty). rewrite Hs, Hpq, Hqty, Hg, Hm.
  destruct (truthy (JStr s)); reflexivity.
Qed.

Lemma multipack_rule_never_decides_witness :
  portionFromQueryOrProduct "cola" (JObj [("quantity", JStr "6 x 33 cl")]) []
  = (Ret None, []).
Proof.
  refine (proj2 (multipack_rule_never_decides "cola"
                   (JObj [("quantity", JStr "6 x 33 cl")]) "6 x 33 cl" [] _ _ _ _ _));
    reflexivity.
Defined.

(** ** The handler as a whole *)

Section HandlerFacts.

Import Nutrition.

Variable net : request -> fetch_result.

Lemma ninjas_log' query key log :
  snd (fetchFromApiNinjas net query key log) = (log ++ ninjas_calls query key)%list.
Proof.
  rewrite ninjas_log. unfold ninjas_calls. destruct key as [k|].
  - destruct (is_empty k); [rewrite app_nil_r|]; reflexivity.
  - rewrite app_nil_r. reflexivity.
Qed.

Lemma populated_some r t : populated r = Some t -> r = Some t /\ gt (kcal t) zero = true.
Proof.
  unfold populated. destruct r as [t'|]; [|discriminate].
  destruct (gt (kcal t') zero) eqn:H; [|discriminate].
  intros [= ->]. split; [reflexivity | exact H].
Qed.

Lemma handler_returns req key log :
  exists resp,
    fst (handler net req key log) = Ret resp
    /\ (code resp = 200 \/ code resp = 400 \/ code resp = 500)%nat
    /\ (code resp = 400%nat <-> is_empty (query_text req) = true).
Proof.
  destruct (is_empty (query_text req)) eqn:Hq.
  - exists (mkHttp 400 (BError "Missing ?q=")).
    unfold handler. rewrite Hq. simpl. tauto.
  - rewrite (handler_unfold net req key log Hq).
    assert (H200 : forall b, exists resp,
              Ret (mkHttp 200 b) = Ret resp
              /\ (code resp = 200 \/ code resp = 400 \/ code resp = 500)%nat
              /\ (code resp = 400%nat <-> false = true)).
    { intros b. eexists. split; [reflexivity|]. simpl.
      split; [left; reflexivity | split; discriminate]. }
    assert (H500 : forall b, exists resp,
              Ret (mkHttp 500 b) = Ret resp
              /\ (code resp = 200 \/ code resp = 400 \/ code resp = 500)%nat
              /\ (code resp = 400%nat <-> false = true)).
    { intros b. eexists. split; [reflexivity|]. simpl.
      split; [right; right; reflexivity | split; discriminate]. }
    destruct (fetchFromApiNinjas net (query_text req) key log) as [[ninjas|e] log1];
      [|apply H500].
    destruct (populated ninjas) as [t|]; [apply H200|].
    destruct (fetchFromOpenFoodFacts net (query_text req) log1) as [[off|e] log2];
      [|apply H500].
    destruct (populated off); apply H200.
Qed.

Lemma handler_log req key log :
  is_empty (query_text req) = false ->
  snd (handler net req key log)
  = (log ++ ninjas_calls (query_text req) key
         ++ match fetchFromApiNinjas net (query_text req) key log with
            | (Ret r, _) =>
                match populated r with
                | Some _ => []
                | None => [off_request (query_text req)]
                end
            | (Throw _, _) => []
            end)%list.
Proof.
  intros Hq. rewrite (handler_unfold net req key log Hq).
  pose proof (ninjas_log' (query_text req) key log) as Hn.
  destruct (fetchFromApiNinjas net (query_text req) key log) as [[ninjas|e] log1];
    simpl in Hn; subst log1; [|rewrite app_nil_r; reflexivity].
  destruct (populated ninjas) as [t|]; [rewrite app_nil_r; reflexivity|].
  pose proof (off_log net (query_text req)
                (log ++ ninjas_calls (query_text req) key)%list) as Ho.
  rewrite <- app_assoc in Ho.
  destruct (fetchFromOpenFoodFacts net (query_text req) _) as [[off|e] log2];
    simpl in Ho; subst log2; [|reflexivity].
  destruct (populated off); reflexivity.
Qed.

(** The handler never throws: it always answers, with status 200, 400 or
    500; status 400 is the answer exactly to a query that is empty once
    trimmed, and then no request is issued.  For any other query the
    requests it adds to the log are exactly these: first the exact-match
    request, whenever there is a credential; then the request to the
    community database, exactly when the exact-match client has returned
    without a result of kcal > 0, and not when it has thrown. *)
Theorem handler_always_answers (req : query_params) (key : option string)
    (log : list request) :
  let q := query_text req in
  exists resp log',
    handler net req key log = (Ret resp, log')
    /\ (code resp = 200 \/ code resp = 400 \/ code resp = 500)%nat
    /\ (code resp = 400%nat <-> is_empty q = true)
    /\ (is_empty q = true -> log' = log)
    /\ (is_empty q = false ->
        log' = (log ++ ninjas_calls q key
                    ++ match fetchFromApiNinjas net q key log with
                       | (Ret r, _) =>
                           match populated r with
                           | Some _ => []
                           | None => [off_request q]
                           end
                       | (Throw _, _) => []
                       end)%list)
    /\ (forall k, is_empty q = false -> key = Some k -> is_empty k = false ->
        exists rest, log' = (log ++ ninjas_request q k :: rest)%list).
Proof.
  intros q. subst q.
  destruct (handler_returns req key log) as (resp & Hret & Hcode & H400).
  pose proof (handler_log req key log) as Hlog.
  destruct (handler net req key log) as [o log'] eqn:Hh.
  simpl in Hret, Hlog. subst o.
  exists resp, log'. split; [reflexivity|].
  split; [exact Hcode|]. split; [exact H400|]. split; [|split].
  - intros Hq. unfold handler in Hh. rewrite Hq in Hh.
    injection Hh as _ <-. reflexivity.
  - exact Hlog.
  - intros k Hq -> Hk. rewrite (Hlog Hq). unfold ninjas_calls. rewrite Hk.
    eexists. reflexivity.
Qed.

(** What a 200 answer holds: a result tagged with a provider has kcal > 0
    (so never NaN), and the only other 200 answer is the all-zero result
    tagged "none"; an error body comes with status 400 or 500 only. *)
Theorem handler_answer_shape (req : query_params) (key : option string)
    (log log' : list request) (resp : http_response) :
  handler net req key log = (Ret resp, log') ->
  match body resp with
  | BEstimate t source =>
      code resp = 200%nat
      /\ ((source = "api_ninjas" \/ source = "open_food_facts")
          /\ gt (kcal t) zero = true /\ isNaN (kcal t) = false
          \/ source = "none" /\ t = mkTotals zero zero zero zero)
  | BError _ => code resp = 400%nat \/ code resp = 500%nat
  end.
Proof.
  assert (Hnan : forall x, gt x zero = true -> isNaN x = false)
    by (intros [ | | | ]; simpl; intros; try reflexivity; discriminate).
  destruct (is_empty (query_text req)) eqn:Hq.
  - unfold handler. rewrite Hq. intros [= <- <-]. simpl. auto.
  - rewrite (handler_unfold net req key log Hq).
    destruct (fetchFromApiNinjas net (query_text req) key log) as [[ninjas|e] log1].
    + destruct (populated ninjas) as [t|] eqn:Hp.
      * intros [= <- <-]. simpl. apply populated_some in Hp. destruct Hp as [_ Hk].
        split; [reflexivity|]. left. auto.
      * destruct (fetchFromOpenFoodFacts net (query_text req) log1) as [[off|e] log2].
        -- destruct (populated off) as [t|] eqn:Hp'; intros [= <- <-]; simpl.
           ++ apply populated_some in Hp'. destruct Hp' as [_ Hk].
              split; [reflexivity|]. left. auto.
           ++ split; [reflexivity|]. right. auto.
        -- intros [= <- <-]. simpl. auto.
    + intros [= <- <-]. simpl. auto.
Qed.

End HandlerFacts.

(** ** Candidates, portions and the request *)

Section Candidates.

Import Nutrition.

Lemma usable_object p : usable p = true -> exists l, p = JObj l.
Proof.
  unfold usable, hasNutriments. destruct p; simpl; try discriminate.
  intros _. eexists; reflexivity.
Qed.

Lemma find_usable_none l :
  Forall (fun p => usable p = false) l -> find_usable l = JUndefined.
Proof.
  induction 1 as [|p l Hp _ IH]; simpl; [reflexivity|].
  unfold usable in Hp. rewrite Hp. exact IH.
Qed.

Lemma find_usable_first l1 p l2 :
  Forall (fun p => usable p = false) l1 -> usable p = true ->
  find_usable (l1 ++ p :: l2)%list = p.
Proof.
  induction 1 as [|x l Hx _ IH]; intros Hp; simpl.
  - unfold usable in Hp. rewrite Hp. reflexivity.
  - unfold usable in Hx. rewrite Hx. apply IH, Hp.
Qed.

(** When no product of the page has usable nutriments the client's
    estimate is absent: falling back on the first product never yields a
    result. *)
Theorem no_usable_product_no_estimate (query : string) (data : jsval)
    (l : list jsval) (log : list request) :
  get data "products" = JArr l ->
  Forall (fun p => usable p = false) l ->
  estimateFromProducts query data log = (Ret None, log).
Proof.
  intros Hd Hall. unfold estimateFromProducts. rewrite Hd.
  destruct l as [|first l']; [reflexivity|].
  rewrite (find_usable_none _ Hall).
  change (or_else JUndefined first) with first.
  inversion Hall as [|x y Hfirst Hrest]; subst.
  unfold usable in Hfirst. rewrite Hfirst.
  destruct (truthy first); reflexivity.
Qed.

Lemma estimate_by_selection query data data' first rest first' rest' log :
  get data "products" = JArr (first :: rest) ->
  get data' "products" = JArr (first' :: rest') ->
  or_else (find_usable (first :: rest)) first
  = or_else (find_usable (first' :: rest')) first' ->
  estimateFromProducts query data log = estimateFromProducts query data' log.
Proof.
  intros Hd Hd' Heq. unfold estimateFromProducts. rewrite Hd, Hd', Heq. reflexivity.
Qed.

(** The estimate is that of the first usable product alone: unusable
    products before it and every product after it change nothing. *)
Theorem estimate_from_first_usable (query : string) (data : jsval)
    (l1 l2 : list jsval) (p : jsval) (log : list request) :
  get data "products" = JArr (l1 ++ p :: l2)%list ->
  Forall (fun p => usable p = false) l1 -> usable p = true ->
  estimateFromProducts query data log
  = estimateFromProducts query (products_of [p]) log.
Proof.
  intros Hd Hall Hp.
  pose proof (find_usable_first l1 p l2 Hall Hp) as Hsel.
  pose proof (find_usable_first [] p [] (Forall_nil _) Hp) as Hone.
  destruct (usable_object p Hp) as [lp ->].
  remember (l1 ++ JObj lp :: l2)%list as l eqn:Hl.
  destruct l as [|first rest]; [destruct l1; discriminate|].
  apply (estimate_by_selection query data (products_of [JObj lp]) first rest
           (JObj lp) [] log Hd); [reflexivity|].
  rewrite Hsel. cbn [app] in Hone. rewrite Hone. reflexivity.
Qed.


End Candidates.

Lemma all_chars_app p (a b : string) :
  all_chars p (a ++ b) = (all_chars p a && all_chars p b)%bool.
Proof.
  induction a as [|c a IH]; simpl; [reflexivity|].
  rewrite IH. apply andb_assoc.
Qed.

Lemma encoded_unit_safe c :
  all_chars (fun x => negb (is_delimiter x)) (encode_unit c) = true.
Proof.
  destruct c as [[] [] [] [] [] [] [] []]; vm_compute; reflexivity.
Qed.

(** The encoded query holds no character that delimits the parts of a URL,
    so the query text cannot alter the other parameters of a request. *)
Lemma encoded_query_has_no_delimiter (query : string) :
  all_chars (fun x => negb (is_delimiter x)) (encodeURIComponent query) = true.
Proof.
  induction query as [|c r IH]; [reflexivity|].
  cbn [encodeURIComponent]. rewrite all_chars_app, encoded_unit_safe, IH.
  reflexivity.
Qed.

(** The query enters both request URLs only in its encoded form, which
    holds none of the characters that delimit the parts of a URL: the query
    text cannot add or alter a parameter of either request. *)
Theorem query_cannot_alter_request (query key : string) :
  let e := encodeURIComponent query in
  url (Nutrition.ninjas_request query key)
  = "https://api.api-ninjas.com/v1/nutrition?query=" ++ e
  /\ url (Nutrition.off_request query)
     = "https://world.openfoodfacts.org/cgi/search.pl?search_terms=" ++ e
       ++ "&search_simple=1&action=process&json=1&page_size=5"
  /\ headers (Nutrition.off_request query) = [("User-Agent", "HFT/1.0 (vercel)")]
  /\ headers (Nutrition.ninjas_request query key) = [("X-Api-Key", key)]
  /\ all_chars (fun x => negb (is_delimiter x)) e = true.
Proof.
  intros e. repeat split; try reflexivity. apply encoded_query_has_no_delimiter.
Qed.

(** ** The two variants of the lookup *)

Section LegacyFacts.

Import Nutrition.

Variable net : request -> fetch_result.

Lemma number_or_0_num v : Legacy.number_or_0 v = num v.
Proof.
  unfold Legacy.number_or_0, num, or_else. destruct (truthy v); reflexivity.
Qed.

Lemma legacy_sum_items_eq (items : list jsval) :
  forall t log, Legacy.sum_items items t log = sum_items items t log.
Proof.
  induction items as [|it rest IH]; intros t log; [reflexivity|].
  cbn [Legacy.sum_items sum_items]. unfold bind.
  assert (Hadd : Legacy.add_item t it log = add_item t it log).
  { unfold Legacy.add_item, add_item, bind.
    destruct (member it "calories" log) as [[c|e] l]; [|reflexivity].
    rewrite !number_or_0_num. reflexivity. }
  rewrite Hadd. destruct (add_item t it log) as [[t'|e] l]; [apply IH | reflexivity].
Qed.

(** Both variants of the lookup sum the items to the same totals:
    [Number(v || 0)] and [num(v)] agree on every value, and the two loops
    agree on every list of items, also when an item makes them throw. *)
Theorem legacy_sum_agrees :
  (forall v, Legacy.number_or_0 v = num v)
  /\ (forall items t log,
        Legacy.sum_items items t log = sum_items items t log).
Proof.
  split; [exact number_or_0_num|].
  intros items. apply legacy_sum_items_eq.
Qed.

Lemma legacy_sum_log items t log : snd (Legacy.sum_items items t log) = log.
Proof. rewrite legacy_sum_items_eq. apply sum_items_log. Qed.

(** The single-source handler never throws: it answers 400 exactly when no
    query parameter is given, 500 without any request when the credential is
    missing, and otherwise issues the one exact-match request and answers
    200 or 500. *)
Theorem legacy_handler_always_answers (req : query_params)
    (key : option string) (log : list request) :
  exists resp log',
    Legacy.handler net req key log = (Ret resp, log')
    /\ (Legacy.code resp = 400%nat <-> chosen_param req = None)
    /\ (chosen_param req <> None -> key_truthy key = false ->
        resp = Legacy.mkHttp 500 (Legacy.BError "Missing API_NINJAS_KEY env var")
        /\ log' = log)
    /\ (forall qv k, chosen_param req = Some qv -> key = Some k ->
        is_empty k = false ->
        log' = (log ++ [ninjas_request (qparam_toString qv) k])%list
        /\ (Legacy.code resp = 200%nat \/ Legacy.code resp = 500%nat)).
Proof.
  unfold Legacy.handler. fold (chosen_param req).
  destruct (chosen_param req) as [qv|].
  2:{ eexists; eexists. split; [reflexivity|]. simpl.
      repeat split; intros; congruence. }
  destruct key as [k|].
  2:{ eexists; eexists. split; [reflexivity|]. simpl.
      repeat split; intros; try congruence; discriminate. }
  destruct (is_empty k) eqn:Hk.
  { eexists; eexists. split; [reflexivity|]. simpl. rewrite Hk.
    repeat split; intros; try congruence; try discriminate. }
  assert (Hshape : exists resp,
    try_catch
      (apiRes <- fetch net (ninjas_request (qparam_toString qv) k);;
       (if negb (ok apiRes)
        then raise (Legacy.upstream_error apiRes)
        else
         items <- read_json apiRes;;
         (let items0 := match items with
                        | JArr l => l
                        | _ => []
                        end in
          t <- Legacy.sum_items items0 (mkTotals zero zero zero zero);;
          ret (Legacy.mkHttp 200 (Legacy.BTotals t items0)))))
      (fun err => ret (Legacy.mkHttp 500 (Legacy.BError (String_of_exn err)))) log
    = (Ret resp, (log ++ [ninjas_request (qparam_toString qv) k])%list)
    /\ (Legacy.code resp = 200%nat \/ Legacy.code resp = 500%nat)).
  { unfold try_catch, bind, fetch.
    destruct (net (ninjas_request (qparam_toString qv) k)) as [e|r].
    { eexists. split; [reflexivity | right; reflexivity]. }
    destruct (ok r); cbn [negb].
    2:{ eexists. split; [reflexivity | right; reflexivity]. }
    unfold read_json. destruct (json r) as [e|v].
    { eexists. split; [reflexivity | right; reflexivity]. }
    cbn [ret].
    set (items0 := match v with JArr l => l | _ => [] end).
    pose proof (legacy_sum_log items0 (mkTotals zero zero zero zero)
                  (log ++ [ninjas_request (qparam_toString qv) k])%list) as Hl.
    destruct (Legacy.sum_items items0 _ _) as [[t|e] l]; simpl in Hl; subst l.
    - eexists. split; [reflexivity | left; reflexivity].
    - eexists. split; [reflexivity | right; reflexivity]. }
  destruct Hshape as (resp & Hrun & Hcode).
  exists resp, (log ++ [ninjas_request (qparam_toString qv) k])%list.
  split; [exact Hrun|]. split; [|split].
  - split; [intros H; destruct Hcode; congruence | discriminate].
  - intros _ Hkey. simpl in Hkey. rewrite Hk in Hkey. discriminate.
  - intros qv' k' [= <-] [= <-] _. split; [reflexivity | exact Hcode].
Qed.

(** A non-success answer of the upstream becomes a 500 answer that carries
    the upstream status and text. *)
Theorem legacy_upstream_error (req : query_params) (qv : qparam)
    (k : string) (r : response) (log : list request) :
  chosen_param req = Some qv -> is_empty k = false ->
  net (ninjas_request (qparam_toString qv) k) = Responded r -> ok r = false ->
  Legacy.handler net req (Some k) log
  = (Ret (Legacy.mkHttp 500
            (Legacy.BError ("Error: Upstream "
                            ++ NilEmpty.string_of_uint (Nat.to_uint (status r))
                            ++ ": " ++ text r))),
     (log ++ [ninjas_request (qparam_toString qv) k])%list).
Proof.
  intros Hq Hk Hr Hok. unfold Legacy.handler. fold (chosen_param req).
  rewrite Hq, Hk. unfold try_catch, bind, fetch. rewrite Hr, Hok. reflexivity.
Qed.

(** Where the lookup with the fallback chain answers from the exact-match
    source, the single-source handler answers 200 with the same totals, by
    the same single request. *)
Theorem variants_agree_on_exact_match (req : query_params) (qv : qparam)
    (k : string) (t : totals) (log' : list request) :
  chosen_param req = Some qv -> query_text req = qparam_toString qv ->
  is_empty k = false ->
  handler net req (Some k) []
  = (Ret (mkHttp 200 (BEstimate t "api_ninjas")), log') ->
  exists items,
    Legacy.handler net req (Some k) []
    = (Ret (Legacy.mkHttp 200 (Legacy.BTotals t items)), log').
Proof.
  intros Hq Htext Hk Hnew.
  assert (Hne : is_empty (query_text req) = false).
  { destruct (is_empty (query_text req)) eqn:He; [|reflexivity].
    unfold handler in Hnew. rewrite He in Hnew. discriminate. }
  rewrite (handler_unfold net req (Some k) [] Hne) in Hnew.
  unfold Legacy.handler. fold (chosen_param req). rewrite Hq, Hk.
  rewrite Htext in Hnew.
  unfold fetchFromApiNinjas in Hnew. rewrite Hk in Hnew.
  unfold try_catch, bind, fetch in *.
  destruct (net (ninjas_request (qparam_toString qv) k)) as [e|r];
    [discriminate|].
  destruct (ok r); cbn [negb] in *.
  2:{ cbn [ret populated] in Hnew.
      destruct (fetchFromOpenFoodFacts net (qparam_toString qv) _) as [[o|e] l2].
      - destruct (populated o); discriminate.
      - discriminate. }
  unfold read_json in *. destruct (json r) as [e|v]; [discriminate|].
  cbn [ret] in *.
  assert (Hoff : forall l1,
    match fetchFromOpenFoodFacts net (qparam_toString qv) l1 with
    | (Ret off, log2) =>
        match populated off with
        | Some t0 => (Ret (mkHttp 200 (BEstimate t0 "open_food_facts")), log2)
        | None => (Ret (mkHttp 200 (BEstimate none_result "none")), log2)
        end
    | (Throw e, log2) => (Ret (mkHttp 500 (BError (String_of_exn e))), log2)
    end <> (Ret (mkHttp 200 (BEstimate t "api_ninjas")), log')).
  { intros l1. destruct (fetchFromOpenFoodFacts net _ l1) as [[o|e] l2].
    - destruct (populated o); discriminate.
    - discriminate. }
  destruct v as [| | | | |[|it l]|]; try (exfalso; eapply Hoff; exact Hnew).
  exists (it :: l). rewrite legacy_sum_items_eq.
  destruct (sum_items (it :: l) _ _) as [[t'|e] l1]; [|discriminate].
  destruct (le (kcal t') zero); cbn [ret populated] in Hnew.
  { exfalso; eapply Hoff; exact Hnew. }
  destruct (gt (kcal t') zero).
  - injection Hnew as <- <-. reflexivity.
  - exfalso; eapply Hoff; exact Hnew.
Qed.

End LegacyFacts.

(** ** The logs *)

Section TrackerFacts.

Import Tracker.

Lemma keep_fresh {A} (id_of : A -> string) id l :
  Forall (fun x => id_of x <> id) l -> keep id_of id l = l.
Proof.
  induction 1 as [|x l Hx _ IH]; [reflexivity|].
  unfold keep in *. simpl. apply String.eqb_neq in Hx. rewrite Hx. simpl.
  rewrite IH. reflexivity.
Qed.

Lemma keep_app {A} (id_of : A -> string) id l1 l2 :
  keep id_of id (l1 ++ l2) = (keep id_of id l1 ++ keep id_of id l2)%list.
Proof. apply filter_app. Qed.

Lemma keep_In {A} (id_of : A -> string) id l x :
  In x (keep id_of id l) <-> In x l /\ id_of x <> id.
Proof.
  unfold keep. rewrite filter_In, negb_true_iff, String.eqb_neq. reflexivity.
Qed.

(** Adding an entry and deleting it again, by the identifier it was given,
    restores all four logs, provided no older entry of that log carries the
    identifier. *)
Theorem add_then_delete (st : state) (id d : string) :
  (forall amount,
      Forall (fun w => water_id w <> id) (water st) ->
      let st' := deleteEntry "water" id (addWater amount d id st) in
      water st' = water st /\ foods st' = foods st
      /\ exs st' = exs st /\ weights st' = weights st)
  /\ (forall description,
      Forall (fun f => food_id f <> id) (foods st) ->
      let st' := deleteEntry "food" id (addFood description d id st) in
      water st' = water st /\ foods st' = foods st
      /\ exs st' = exs st /\ weights st' = weights st)
  /\ (forall p,
      Forall (fun e => ex_id e <> id) (exs st) ->
      let st' := deleteEntry "ex" id (addExercise p d id st) in
      water st' = water st /\ foods st' = foods st
      /\ exs st' = exs st /\ weights st' = weights st)
  /\ (forall k,
      Forall (fun w => weight_id w <> id) (weights st) ->
      let st' := deleteEntry "weight" id (addWeight k d id st) in
      water st' = water st /\ foods st' = foods st
      /\ exs st' = exs st /\ weights st' = weights st).
Proof.
  repeat apply conj.
  - intros amount Hfresh st'. subst st'. unfold addWater.
    destruct (negb (Num.truthy amount)); unfold deleteEntry; simpl.
    + rewrite (keep_fresh _ _ _ Hfresh). auto.
    + rewrite keep_app, (keep_fresh _ _ _ Hfresh). unfold keep. simpl.
      rewrite String.eqb_refl. simpl. rewrite app_nil_r. auto.
  - intros description Hfresh st'. subst st'. unfold addFood.
    destruct (is_empty (trim description)); unfold deleteEntry; simpl.
    + rewrite (keep_fresh _ _ _ Hfresh). auto.
    + unfold keep at 1. simpl. rewrite String.eqb_refl. simpl.
      fold (keep food_id id (foods st)). rewrite (keep_fresh _ _ _ Hfresh). auto.
  - intros p Hfresh st'. subst st'. unfold addExercise.
    destruct (is_empty (p_type p) || is_empty (p_timeMin p))%bool;
      unfold deleteEntry; simpl.
    + rewrite (keep_fresh _ _ _ Hfresh). auto.
    + unfold keep at 1. simpl. rewrite String.eqb_refl. simpl.
      fold (keep ex_id id (exs st)). rewrite (keep_fresh _ _ _ Hfresh). auto.
  - intros k Hfresh st'. subst st'. unfold addWeight.
    destruct (negb (Num.truthy k)); unfold deleteEntry; simpl.
    + rewrite (keep_fresh _ _ _ Hfresh). auto.
    + unfold keep at 1. simpl. rewrite String.eqb_refl. simpl.
      fold (keep weight_id id (weights st)). rewrite (keep_fresh _ _ _ Hfresh). auto.
Qed.

Lemma kind_cases kind :
  (kind = "water" /\ String.eqb kind "food" = false /\ String.eqb kind "ex" = false
   /\ String.eqb kind "weight" = false)
  \/ (String.eqb kind "water" = false /\ kind = "food" /\ String.eqb kind "ex" = false
      /\ String.eqb kind "weight" = false)
  \/ (String.eqb kind "water" = false /\ String.eqb kind "food" = false /\ kind = "ex"
      /\ String.eqb kind "weight" = false)
  \/ (String.eqb kind "water" = false /\ String.eqb kind "food" = false
      /\ String.eqb kind "ex" = false /\ kind = "weight")
  \/ (String.eqb kind "water" = false /\ String.eqb kind "food" = false
      /\ String.eqb kind "ex" = false /\ String.eqb kind "weight" = false).
Proof.
  destruct (String.eqb_spec kind "water") as [->|]; [left; repeat split; reflexivity|].
  destruct (String.eqb_spec kind "food") as [->|];
    [right; left; repeat split; reflexivity|].
  destruct (String.eqb_spec kind "ex") as [->|];
    [right; right; left; repeat split; reflexivity|].
  destruct (String.eqb_spec kind "weight") as [->|];
    [right; right; right; left; repeat split; reflexivity|].
  right; right; right; right. repeat split; reflexivity.
Qed.

(** Deleting removes from the log of the given kind every entry with the
    identifier and nothing else, touches no other log, and does nothing at
    all for a kind that is none of "water", "food", "ex" and "weight". *)
Theorem delete_removes_exactly (kind id : string) (st : state) :
  let st' := deleteEntry kind id st in
  water st' = (if String.eqb kind "water" then keep water_id id (water st)
               else water st)
  /\ foods st' = (if String.eqb kind "food" then keep food_id id (foods st)
                  else foods st)
  /\ exs st' = (if String.eqb kind "ex" then keep ex_id id (exs st) else exs st)
  /\ weights st' = (if String.eqb kind "weight"
                    then keep weight_id id (weights st) else weights st)
  /\ (forall w, In w (keep water_id id (water st))
                <-> In w (water st) /\ water_id w <> id)
  /\ (forall f, In f (keep food_id id (foods st))
                <-> In f (foods st) /\ food_id f <> id)
  /\ (forall e, In e (keep ex_id id (exs st)) <-> In e (exs st) /\ ex_id e <> id)
  /\ (forall w, In w (keep weight_id id (weights st))
                <-> In w (weights st) /\ weight_id w <> id)
  /\ (String.eqb kind "water" = false -> String.eqb kind "food" = false ->
      String.eqb kind "ex" = false -> String.eqb kind "weight" = false ->
      st' = st)
  /\ deleteEntry kind id st' = st'.
Proof.
  intros st'. subst st'.
  assert (Hidem : forall A (id_of : A -> string) l,
            keep id_of id (keep id_of id l) = keep id_of id l).
  { intros A id_of l. apply keep_fresh. apply Forall_forall.
    intros x Hx. apply keep_In in Hx. tauto. }
  repeat apply conj; try (intros; apply keep_In).
  - unfold deleteEntry.
    destruct (String.eqb kind "water"), (String.eqb kind "food"),
      (String.eqb kind "ex"), (String.eqb kind "weight"); reflexivity.
  - unfold deleteEntry.
    destruct (String.eqb kind "water"), (String.eqb kind "food"),
      (String.eqb kind "ex"), (String.eqb kind "weight"); reflexivity.
  - unfold deleteEntry.
    destruct (String.eqb kind "water"), (String.eqb kind "food"),
      (String.eqb kind "ex"), (String.eqb kind "weight"); reflexivity.
  - unfold deleteEntry.
    destruct (String.eqb kind "water"), (String.eqb kind "food"),
      (String.eqb kind "ex"), (String.eqb kind "weight"); reflexivity.
  - intros H1 H2 H3 H4. unfold deleteEntry. rewrite H1, H2, H3, H4.
    destruct st; reflexivity.
  - destruct (kind_cases kind) as [H|[H|[H|[H|H]]]];
      destruct H as (H1 & H2 & H3 & H4); subst; unfold deleteEntry;
      try rewrite H1; try rewrite H2; try rewrite H3; try rewrite H4; simpl;
      try rewrite Hidem; reflexivity.
Qed.

Lemma round_sign x : has_sign false x = true -> has_sign false (round x) = true.
Proof.
  destruct x as [s|s| |s m e]; unfold round; try (intros H; exact H).
  intros Hs. destruct s; [discriminate Hs|].
  destruct e as [|p|p]; try exact Hs.
  assert (Hden : 0 < Z.pow_pos 2 p)
    by (rewrite Z.pow_pos_fold; apply Z.pow_pos_nonneg; lia).
  apply binary_normalize_sign; [discriminate|].
  intros _. apply Z.div_pos; lia.
Qed.

Lemma estimate_kcal_sign description :
  has_sign false (App.est_kcal (App.estimateFood description)) = true.
Proof.
  unfold App.estimateFood.
  set (d := trim (toLowerCase description)).
  destruct (find (fun x => includes d (App.key x)) App.MINI_DB) as [hit|] eqn:Hf.
  - destruct (find_some _ _ Hf) as [Hin _].
    pose proof (proj1 (Forall_forall _ _) MINI_DB_values hit Hin)
      as ((m & e & Hk) & _).
    rewrite quantity_multiplier. simpl. rewrite Hk.
    apply mul_finite_sign, multiplier_sign.
  - destruct (includes d "chicken"); [reflexivity|].
    destruct (includes d "beef"); [reflexivity|].
    destruct (includes d "salad"); [reflexivity|].
    destruct (includes d "sandwich"); reflexivity.
Qed.

(** The food log keeps its energies sound: if the kcal of every entry is a
    number with a positive sign (so neither below zero nor NaN), it still is
    after [addFood] and after [submitFood], whatever the text. *)
Theorem food_log_kcal_sound (st : state) (description d id : string) :
  Forall (fun f => has_sign false (food_kcal f) = true) (foods st) ->
  Forall (fun f => has_sign false (food_kcal f) = true
                   /\ lt (food_kcal f) zero = false
                   /\ isNaN (food_kcal f) = false)
    (foods (addFood description d id st))
  /\ Forall (fun f => has_sign false (food_kcal f) = true
                      /\ lt (food_kcal f) zero = false
                      /\ isNaN (food_kcal f) = false)
       (foods (submitFood id st)).
Proof.
  intros Hall.
  assert (Hweak : forall l,
            Forall (fun f => has_sign false (food_kcal f) = true) l ->
            Forall (fun f => has_sign false (food_kcal f) = true
                             /\ lt (food_kcal f) zero = false
                             /\ isNaN (food_kcal f) = false) l).
  { intros l H. eapply Forall_impl; [|exact H]. intros f Hf. repeat split.
    - exact Hf.
    - apply has_sign_not_lt, Hf.
    - apply (has_sign_not_nan false), Hf. }
  assert (Hadd : forall text day,
            Forall (fun f => has_sign false (food_kcal f) = true)
              (foods (addFood text day id st))).
  { intros text day. unfold addFood.
    destruct (is_empty (trim text)); [exact Hall|]. simpl.
    constructor; [|exact Hall]. simpl. apply round_sign, estimate_kcal_sign. }
  split.
  - apply Hweak, Hadd.
  - apply Hweak. unfold submitFood.
    destruct (negb (is_empty (trim (foodRef (refs st))))); [|exact Hall].
    simpl. apply Hadd.
Qed.

Lemma gt_zero_truthy x : gt x zero = true -> Num.truthy x = true.
Proof. destruct x as [[]|[]| |[] m e]; simpl; intros H; try discriminate; reflexivity. Qed.

(** The submit handlers keep the water and weight logs positive: if every
    amount and every weight is above zero before, so it is after, and a
    text that is empty, not a number, zero or negative adds nothing. *)
Theorem submit_keeps_positive (st : state) (id : string) :
  Forall (fun w => gt (amountMl w) zero = true) (water st) ->
  Forall (fun w => gt (kg w) zero = true) (weights st) ->
  Forall (fun w => gt (amountMl w) zero = true) (water (submitWater id st))
  /\ Forall (fun w => gt (kg w) zero = true) (weights (submitWeight id st))
  /\ (gt (number_of_input (waterRef (refs st))) zero = false ->
      submitWater id st = st)
  /\ (gt (number_of_input (weightRef (refs st))) zero = false ->
      submitWeight id st = st).
Proof.
  intros Hw Hk. repeat apply conj.
  - unfold submitWater.
    destruct (gt (number_of_input (waterRef (refs st))) zero) eqn:Hv; [|exact Hw].
    unfold addWater. rewrite (gt_zero_truthy _ Hv). simpl.
    apply Forall_app. split; [exact Hw|]. constructor; [exact Hv | constructor].
  - unfold submitWeight.
    destruct (gt (number_of_input (weightRef (refs st))) zero) eqn:Hv; [|exact Hk].
    unfold addWeight. rewrite (gt_zero_truthy _ Hv). simpl.
    constructor; [exact Hv | exact Hk].
  - intros Hv. unfold submitWater. rewrite Hv. reflexivity.
  - intros Hv. unfold submitWeight. rewrite Hv. reflexivity.
Qed.

Lemma sum_app l1 l2 : sum (l1 ++ l2) = fold_left add l2 (sum l1).
Proof. unfold sum. apply fold_left_app. Qed.

(** Logging water raises the figure of the day shown by exactly the amount
    when it is logged for that day, and leaves it alone when it is logged
    for another day; the other daily figures do not move. *)
Theorem water_of_the_day (st : state) (amount : number) (d id : string) :
  Num.truthy amount = true ->
  let st' := addWater amount d id st in
  dayWaterMl st'
  = (if String.eqb d (date st) then add (dayWaterMl st) amount else dayWaterMl st)
  /\ dayFoodKcal st' = dayFoodKcal st
  /\ dayExKcal st' = dayExKcal st
  /\ dayExTime st' = dayExTime st
  /\ netCalories st' = netCalories st
  /\ dayWeights st' = dayWeights st.
Proof.
  intros Ht st'. subst st'. unfold addWater. rewrite Ht. cbn [negb].
  split; [|repeat split].
  unfold dayWaterMl. simpl. rewrite filter_app, map_app, sum_app. simpl.
  destruct (String.eqb d (date st)); reflexivity.
Qed.

Lemma series_length w last days :
  List.length (weightSeries_from w last days) = List.length days.
Proof.
  revert last. induction days as [|d days IH]; intros last; simpl; [reflexivity|].
  rewrite IH. reflexivity.
Qed.

(** The weight charted for a day is the first entry the log holds for that
    day, and for a day without entries the weight charted for the day
    before, or none when no earlier day has one. *)
Theorem weight_carried_forward (st : state) (days : list string) (d : string) :
  List.length (weightSeries st days) = List.length days
  /\ weightSeries st (days ++ [d])
     = (weightSeries st days
        ++ [mkPoint (slice5 d)
              (match filter (fun w => String.eqb (weight_date w) d) (weights st) with
               | w :: _ => Some (kg w)
               | [] => match rev (weightSeries st days) with
                       | p :: _ => weight p
                       | [] => None
                       end
               end)])%list.
Proof.
  split; [apply series_length|].
  unfold weightSeries. generalize (@None number) as last.
  induction days as [|d0 days IH]; intros last.
  - simpl. destruct (filter _ (weights st)); reflexivity.
  - cbn [app weightSeries_from]. rewrite IH. cbn [app]. f_equal. f_equal. f_equal.
    destruct (filter (fun w => String.eqb (weight_date w) d) (weights st)) as [|w l];
      [|reflexivity].
    cbn [rev].
    destruct (rev (weightSeries_from (weights st) _ days)) as [|p l] eqn:Hr.
    + apply (f_equal (@List.length point)) in Hr.
      rewrite length_rev, series_length in Hr.
      destruct days; [reflexivity | discriminate].
    + reflexivity.
Qed.

(** The weight logged last for a day is the one charted for it. *)
Theorem latest_weight_charted (st : state) (k : number) (d id : string) :
  Num.truthy k = true ->
  weightSeries (addWeight k d id st) [d] = [mkPoint (slice5 d) (Some k)].
Proof.
  intros Ht. unfold addWeight. rewrite Ht. cbn [negb].
  unfold weightSeries. simpl. rewrite String.eqb_refl. reflexivity.
Qed.

End TrackerFacts.

(** ** Normalisation of a description *)

Lemma lower_idem c : lower (lower c) = lower c.
Proof. destruct c as [[] [] [] [] [] [] [] []]; vm_compute; reflexivity. Qed.

Lemma space_lower c : is_space (lower c) = is_space c.
Proof. destruct c as [[] [] [] [] [] [] [] []]; vm_compute; reflexivity. Qed.

Lemma toLowerCase_idem s : toLowerCase (toLowerCase s) = toLowerCase s.
Proof. induction s as [|c r IH]; simpl; [reflexivity|]. rewrite lower_idem, IH. reflexivity. Qed.

Lemma lower_trimStart s : toLowerCase (trimStart s) = trimStart (toLowerCase s).
Proof.
  induction s as [|c r IH]; simpl; [reflexivity|].
  rewrite space_lower. destruct (is_space c); [exact IH | reflexivity].
Qed.

Lemma lower_trimEnd s : toLowerCase (trimEnd s) = trimEnd (toLowerCase s).
Proof.
  induction s as [|c r IH]; simpl; [reflexivity|].
  rewrite <- IH, space_lower.
  destruct (trimEnd r) as [|a t]; simpl; [destruct (is_space c)|]; reflexivity.
Qed.

Lemma lower_trim s : toLowerCase (trim s) = trim (toLowerCase s).
Proof. unfold trim. rewrite lower_trimEnd, lower_trimStart. reflexivity. Qed.

Lemma trimEnd_idem s : trimEnd (trimEnd s) = trimEnd s.
Proof.
  induction s as [|c r IH]; simpl; [reflexivity|].
  destruct (trimEnd r) as [|a t] eqn:Hr.
  - destruct (is_space c) eqn:Hc; simpl; [reflexivity|]. rewrite Hc. reflexivity.
  - cbn [trimEnd]. cbn [trimEnd] in IH. rewrite IH. reflexivity.
Qed.

(** A text that does not start with white space keeps its start when its end
    is trimmed. *)
Lemma trimStart_trimEnd s : trimStart (trimEnd (trimStart s)) = trimEnd (trimStart s).
Proof.
  induction s as [|c r IH]; simpl; [reflexivity|].
  destruct (is_space c) eqn:Hc; [exact IH|].
  cbn [trimEnd]. destruct (trimEnd r); rewrite ?Hc; cbn [trimStart]; rewrite ?Hc;
    reflexivity.
Qed.

Lemma trim_idem s : trim (trim s) = trim s.
Proof. unfold trim. rewrite trimStart_trimEnd, trimEnd_idem. reflexivity. Qed.

(** The estimate depends on the description only through its lowercased,
    trimmed text: for every text of the embedding, that is of code units
    below 256, upper case and surrounding white space (the no-break space
    included) never change the energy, the macros or the source. *)
Theorem estimate_ignores_case_and_margins (s : string) :
  let same (a b : App.estimate) :=
    App.est_kcal a = App.est_kcal b /\ App.macros a = App.macros b
    /\ App.source a = App.source b in
  same (App.estimateFood (trim s)) (App.estimateFood s)
  /\ same (App.estimateFood (toLowerCase s)) (App.estimateFood s).
Proof.
  intros same. subst same. cbv beta. unfold App.estimateFood.
  rewrite lower_trim, trim_idem, toLowerCase_idem.
  set (d := trim (toLowerCase s)).
  destruct (find (fun x => includes d (App.key x)) App.MINI_DB) as [hit|].
  - repeat split; reflexivity.
  - destruct (includes d "chicken"); [repeat split; reflexivity|].
    destruct (includes d "beef"); [repeat split; reflexivity|].
    destruct (includes d "salad"); [repeat split; reflexivity|].
    destruct (includes d "sandwich"); repeat split; reflexivity.
Qed.

Section MoreLookup.

Import Nutrition.

Variable net : request -> fetch_result.

(** A [q] parameter that is not empty is the query even when it is blank:
    the [query] parameter is then never consulted, and a blank [q] is
    answered 400 without any request. *)
Theorem blank_q_shadows_query (req : query_params) (s : string)
    (key : option string) (log : list request) :
  q req = Some (QOne s) -> is_empty s = false ->
  query_text req = trim s
  /\ (is_empty (trim s) = true ->
      handler net req key log = (Ret (mkHttp 400 (BError "Missing ?q=")), log)).
Proof.
  intros Hq Hs.
  assert (Ht : query_text req = trim s).
  { unfold query_text. rewrite Hq. cbn [qparam_truthy]. rewrite Hs. reflexivity. }
  split; [exact Ht|]. intros He. unfold handler. rewrite Ht, He. reflexivity.
Qed.

(** A [null] among the items of the exact-match answer fails the whole
    request: the client throws, and the handler answers 500 without asking
    the community database. *)
Theorem null_item_fails_request (req : query_params) (k : string) (r : response)
    (l1 l2 : list jsval) :
  is_empty (query_text req) = false -> is_empty k = false ->
  net (ninjas_request (query_text req) k) = Responded r -> ok r = true ->
  json r = Parsed (JArr (l1 ++ JNull :: l2)%list) ->
  Forall (fun it => it <> JNull /\ it <> JUndefined) l1 ->
  handler net req (Some k) []
  = (Ret (mkHttp 500
            (BError "TypeError: Cannot read properties of null (reading 'calories')")),
     [ninjas_request (query_text req) k]).
Proof.
  intros Hq Hk Hr Hok Hj Hall.
  rewrite (handler_unfold net req (Some k) [] Hq).
  unfold fetchFromApiNinjas. rewrite Hk. unfold bind at 1, fetch. rewrite Hr.
  rewrite Hok. cbn [negb]. unfold bind at 1, read_json. rewrite Hj. cbn [ret].
  destruct (l1 ++ JNull :: l2)%list as [|it l] eqn:Hl; [destruct l1; discriminate|].
  rewrite <- Hl. unfold bind. rewrite (sum_items_null l1 l2 _ _ Hall). reflexivity.
Qed.

End MoreLookup.

(** ** Runs on concrete inputs *)

Section Runs.

Import Nutrition Scenario Samples.

(** Beyond ASCII: the no-break space is white space for [trim], for the
    class of white space of a pattern and for [parseFloat], a letter with
    an accent has a lower case, and a code unit from 128 upwards is encoded
    as the two octets of its UTF-8 form. *)
Remark texts_beyond_ascii :
  query_text (req (nbsp ++ " apple" ++ nbsp)) = "apple"
  /\ handler both_usable (req nbsp) (Some "secret") []
     = (Ret (mkHttp 400 (BError "Missing ?q=")), [])
  /\ exec true re_query_grams ("200" ++ nbsp ++ "g chicken")
     = Some [(2%nat, "g"); (1%nat, "200")]
  /\ parseFloat (nbsp ++ "1.5") = of_decimal false 15 (-1)
  /\ toLowerCase ("Cr" ++ E_acute ++ "ME") = "cr" ++ e_acute ++ "me"
  /\ App.source (App.estimateFood (nbsp ++ "BANANA FLAMB" ++ E_acute ++ "E"))
     = "estimation (per medium)"
  /\ encodeURIComponent ("cr" ++ e_acute ++ "me br" ++ nbsp) = "cr%C3%A9me%20br%C2%A0".
Proof. repeat split; vm_compute; reflexivity. Qed.

Lemma handler_answer_shape_witness :
  gt (of_Z 150) zero = true /\ isNaN (of_Z 150) = false.
Proof.
  pose proof (handler_answer_shape both_usable (req "200g chicken") (Some "secret")
                [] [ninjas_request "200g chicken" "secret"]
                (mkHttp 200 (BEstimate (mkTotals (of_Z 150) (of_Z 15) zero zero)
                               "api_ninjas")) eq_refl) as H.
  simpl in H. destruct H as [_ [(_ & Hk & Hn)|(Hs & _)]]; [|discriminate Hs].
  split; assumption.
Defined.

Lemma no_usable_product_no_estimate_witness :
  estimateFromProducts "mystery" (products_of [bare; JNull]) [] = (Ret None, []).
Proof.
  apply (no_usable_product_no_estimate "mystery" (products_of [bare; JNull])
           [bare; JNull] []); [reflexivity|].
  repeat constructor.
Defined.

Lemma estimate_from_first_usable_witness :
  estimateFromProducts "200g chicken" (products_of [bare; JNull; chicken; multipack]) []
  = estimateFromProducts "200g chicken" (products_of [chicken]) [].
Proof.
  apply (estimate_from_first_usable "200g chicken"
           (products_of [bare; JNull; chicken; multipack]) [bare; JNull] [multipack]
           chicken []); [reflexivity | repeat constructor | reflexivity].
Defined.


Lemma legacy_upstream_error_witness :
  Legacy.handler (answers (Responded unavailable) (ok_json JNull)) (req "apple")
    (Some "secret") []
  = (Ret (Legacy.mkHttp 500
            (Legacy.BError "Error: Upstream 503: Service Unavailable")),
     [ninjas_request "apple" "secret"]).
Proof.
  apply (legacy_upstream_error (answers (Responded unavailable) (ok_json JNull))
           (req "apple") (QOne "apple") "secret" unavailable []); reflexivity.
Defined.

Lemma variants_agree_on_exact_match_witness :
  exists items,
    Legacy.handler both_usable (req "200g chicken") (Some "secret") []
    = (Ret (Legacy.mkHttp 200
              (Legacy.BTotals (mkTotals (of_Z 150) (of_Z 15) zero zero) items)),
       [ninjas_request "200g chicken" "secret"]).
Proof.
  apply (variants_agree_on_exact_match both_usable (req "200g chicken")
           (QOne "200g chicken") "secret"); reflexivity.
Defined.

Lemma blank_q_shadows_query_witness :
  handler both_usable (mkQuery (Some (QOne "   ")) (Some (QOne "apple")))
    (Some "secret") []
  = (Ret (mkHttp 400 (BError "Missing ?q=")), []).
Proof.
  apply (proj2 (blank_q_shadows_query both_usable
                  (mkQuery (Some (QOne "   ")) (Some (QOne "apple"))) "   "
                  (Some "secret") [] eq_refl eq_refl)).
  reflexivity.
Defined.

Lemma null_item_fails_request_witness :
  handler (answers (ok_json (JArr [item (n 100) (n 10); JNull]))
             (ok_json (products [chicken])))
    (req "apple") (Some "secret") []
  = (Ret (mkHttp 500
            (BError "TypeError: Cannot read properties of null (reading 'calories')")),
     [ninjas_request "apple" "secret"]).
Proof.
  apply (null_item_fails_request
           (answers (ok_json (JArr [item (n 100) (n 10); JNull]))
              (ok_json (products [chicken])))
           (req "apple") "secret"
           (mkResponse true 200 "" (Parsed (JArr [item (n 100) (n 10); JNull])))
           [item (n 100) (n 10)] []); try reflexivity.
  repeat constructor; discriminate.
Defined.

Lemma food_log_kcal_sound_witness :
  Forall (fun f => has_sign false (Tracker.food_kcal f) = true
                   /\ lt (Tracker.food_kcal f) zero = false
                   /\ isNaN (Tracker.food_kcal f) = false)
    (Tracker.foods (Tracker.submitFood "f2" monday)).
Proof.
  refine (proj2 (food_log_kcal_sound monday "" "" "f2" _)).
  constructor; [reflexivity | constructor].
Defined.

Lemma submit_keeps_positive_witness :
  Forall (fun w => gt (Tracker.amountMl w) zero = true)
    (Tracker.water (Tracker.submitWater "w2" monday)).
Proof.
  refine (proj1 (submit_keeps_positive monday "w2" _ _)).
  - constructor; [reflexivity | constructor].
  - constructor; [reflexivity | constructor].
Defined.

Lemma water_of_the_day_witness :
  Tracker.dayWaterMl (Tracker.addWater (of_Z 500) "2024-05-06" "w2" monday)
  = add (Tracker.dayWaterMl monday) (of_Z 500).
Proof.
  refine (proj1 (water_of_the_day monday (of_Z 500) "2024-05-06" "w2" _)).
  reflexivity.
Defined.

Lemma latest_weight_charted_witness :
  Tracker.weightSeries (Tracker.addWeight (of_decimal false 815 (-1)) "2024-05-06"
                          "g2" monday) ["2024-05-06"]
  = [Tracker.mkPoint "05-06" (Some (of_decimal false 815 (-1)))].
Proof.
  apply (latest_weight_charted monday (of_decimal false 815 (-1)) "2024-05-06" "g2").
  reflexivity.
Defined.

End Runs.
